(** * PaginationPlus: a shallow embedding of the pagination engine

    The development follows the two revisions of the engine found in the
    repository:
    - [Base]       : src/PaginationPlus.ts
    - [Responsive] : the "Enhanced PaginationPlus with responsive support"
                     revision (adds [refreshPagination] and the resize key).
    Code that is textually the same in both revisions is embedded once. *)

From Stdlib Require Import ZArith String List Lia DecimalString.
From stdpp Require Import base option list gmap strings.

Local Open Scope Z_scope.

(** ** JavaScript numbers

    Every number the engine handles is a pixel count, an element count or
    the outcome of arithmetic on those.  The embedding keeps the
    integer-valued doubles (in the range where double arithmetic is exact)
    together with the three special values the code can produce or receive:
    [Infinity], [-Infinity] and [NaN].  Fractions and the sign of zero are
    left out. *)
Module JsNum.

Inductive num : Type :=
| Fin (z : Z)
| PInf
| NInf
| NaN.

Definition neg (a : num) : num :=
  match a with
  | Fin x => Fin (- x)
  | PInf => NInf
  | NInf => PInf
  | NaN => NaN
  end.

(** [a + b] *)
Definition add (a b : num) : num :=
  match a, b with
  | NaN, _ | _, NaN => NaN
  | Fin x, Fin y => Fin (x + y)
  | PInf, NInf | NInf, PInf => NaN
  | PInf, _ | _, PInf => PInf
  | NInf, _ | _, NInf => NInf
  end.

(** [a - b] *)
Definition sub (a b : num) : num := add a (neg b).

(** the sign of an infinite product, from the sign of the finite factor *)
Definition signed_inf (positive : bool) (x : Z) : num :=
  if x =? 0 then NaN
  else if Bool.eqb positive (0 <? x) then PInf else NInf.

(** [a * b] *)
Definition mul (a b : num) : num :=
  match a, b with
  | NaN, _ | _, NaN => NaN
  | Fin x, Fin y => Fin (x * y)
  | PInf, Fin y => signed_inf true y
  | NInf, Fin y => signed_inf false y
  | Fin x, PInf => signed_inf true x
  | Fin x, NInf => signed_inf false x
  | PInf, PInf | NInf, NInf => PInf
  | PInf, NInf | NInf, PInf => NInf
  end.

(** least integer not below the exact quotient [x / y], for [y <> 0] *)
Definition Zceil_div (x y : Z) : Z := - ((- x) / y).

(** [Math.ceil(a / b)] *)
Definition ceil_div (a b : num) : num :=
  match a, b with
  | NaN, _ | _, NaN => NaN
  | Fin x, Fin y =>
      if y =? 0 then
        (if 0 <? x then PInf else if x <? 0 then NInf else NaN)
      else Fin (Zceil_div x y)
  | Fin _, (PInf | NInf) => Fin 0
  | PInf, Fin y => if y <? 0 then NInf else PInf
  | NInf, Fin y => if y <? 0 then PInf else NInf
  | (PInf | NInf), (PInf | NInf) => NaN
  end.

(** [a < b] *)
Definition ltb (a b : num) : bool :=
  match a, b with
  | NaN, _ | _, NaN => false
  | Fin x, Fin y => x <? y
  | NInf, (Fin _ | PInf) => true
  | Fin _, PInf => true
  | _, _ => false
  end.

(** [a > b] *)
Definition gtb (a b : num) : bool := ltb b a.

(** [a >= b] *)
Definition geb (a b : num) : bool :=
  match a, b with
  | NaN, _ | _, NaN => false
  | Fin x, Fin y => y <=? x
  | PInf, _ => true
  | _, NInf => true
  | _, _ => false
  end.

(** [a !== b] on two numbers *)
Definition neqb (a b : num) : bool :=
  match a, b with
  | NaN, _ | _, NaN => true
  | Fin x, Fin y => negb (x =? y)
  | PInf, PInf | NInf, NInf => false
  | _, _ => true
  end.

(** [Math.max(0, a)], used on the specification side only *)
Definition max0 (a : num) : num :=
  match a with
  | Fin x => Fin (Z.max 0 x)
  | PInf => PInf
  | NInf => Fin 0
  | NaN => NaN
  end.

(** [String(a)] *)
Definition to_string (a : num) : string :=
  match a with
  | Fin x => NilZero.string_of_int (Z.to_int x)
  | PInf => "Infinity"
  | NInf => "-Infinity"
  | NaN => "NaN"
  end.

Definition is_finite (a : num) : Prop := exists z, a = Fin z.

(** order on results, defined on finite values only *)
Definition le (a b : num) : Prop :=
  match a, b with
  | Fin x, Fin y => x <= y
  | _, _ => False
  end.

End JsNum.
Import JsNum.

Declare Scope num_scope.
Delimit Scope num_scope with num.
Bind Scope num_scope with num.
Infix "+" := add : num_scope.
Infix "-" := sub : num_scope.
Infix "*" := mul : num_scope.
Infix "<?" := ltb : num_scope.
Infix ">?" := gtb : num_scope.
Infix ">=?" := geb : num_scope.

Local Open Scope string_scope.
Local Open Scope list_scope.

(** ** Data model *)

(** A JavaScript value as far as the commands inspect it ([typeof], [!== undefined],
    truthiness). *)
Inductive jsval : Type :=
| JUndefined
| JNull
| JBool (b : bool)
| JNumber (n : num)
| JString (s : string).

(** [typeof v === "number"] *)
Definition typeof_number (v : jsval) : bool :=
  match v with JNumber _ => true | _ => false end.

(** [v !== undefined] *)
Definition defined (v : jsval) : bool :=
  match v with JUndefined => false | _ => true end.

(** truthiness of a value in a condition *)
Definition truthy (v : jsval) : bool :=
  match v with
  | JUndefined | JNull => false
  | JBool b => b
  | JNumber (Fin z) => negb (z =? 0)%Z
  | JNumber NaN => false
  | JNumber _ => true
  | JString s => negb (s =? "")
  end.

(** [footerText: string | string[] | ((pageNumber: number) => string)] *)
Inductive FooterText : Type :=
| FooterString (s : string)
| FooterArray (l : list string)
| FooterFunction (f : num -> string).

(** [interface PaginationPlusOptions] *)
Record PaginationPlusOptions : Type := {
  pageHeight : num;
  pageGap : num;
  pageBreakBackground : string;
  pageHeaderHeight : num;
  pageFooterHeight : num;
  pageMarginLeft : num;
  pageMarginRight : num;
  pageGapBorderSize : num;
  footerText : FooterText;
}.

(** [addOptions()] *)
Definition addOptions : PaginationPlusOptions := {|
  pageHeight := Fin 800;
  pageGap := Fin 50;
  pageGapBorderSize := Fin 1;
  pageBreakBackground := "#ffffff";
  pageHeaderHeight := Fin 10;
  pageFooterHeight := Fin 10;
  pageMarginLeft := Fin 0;
  pageMarginRight := Fin 0;
  footerText := FooterString "";
|}.

(** [interface MarginUpdate]; an absent field reads as [undefined].  The
    commands test [typeof] at run time, so a field can hold any value. *)
Record MarginUpdate : Type := {
  left : jsval;
  right : jsval;
  top : jsval;
  bottom : jsval;
}.

Definition pagination_meta_key : string := "PAGINATION_META_KEY".
Definition resize_meta_key : string := "RESIZE_META_KEY".

(** An editor transaction: whether it changes the document, and its
    metadata object. *)
Record Transaction : Type := {
  docChanged : bool;
  meta : gmap string jsval;
}.

(** [tr.getMeta(key)] *)
Definition getMeta (tr : Transaction) (key : string) : jsval :=
  default JUndefined (meta tr !! key).

(** [tr.setMeta(key, value)] *)
Definition setMeta (tr : Transaction) (key : string) (v : jsval) : Transaction :=
  {| docChanged := docChanged tr; meta := <[key := v]> (meta tr) |}.

(** [editor.view.state.tr] : a fresh transaction on the current state *)
Definition state_tr : Transaction := {| docChanged := false; meta := ∅ |}.

(** The lengths the synthesizer writes into inline styles: [Npx],
    [calc(Apx + Bpx)] and [calc(100% + Npx)]. *)
Inductive css_length : Type :=
| Px (n : num)
| CalcSum (a b : num)
| FullPlus (n : num).

(** One [.rm-page-break] container as the synthesizer builds it: the
    [.page] body, and the [.breaker] with its footer, gap and header bands. *)
Record PageBreak : Type := {
  page_marginTop : css_length;
  page_paddingLeft : option num;
  breaker_width : css_length;
  footer_height : num;
  footer_text : string;
  gap_height : num;
  gap_background : string;
  header_height : num;
}.

(** A page break in the rendered tree: what was synthesized, the measured
    [offsetTop] of its [.page] element, and whether it carries the class
    [last-page]. *)
Record RenderedBreak : Type := {
  rb_break : PageBreak;
  rb_pageTop : Z;
  rb_lastPage : bool;
}.

(** A child of the editor's root element.  [el_breaks] are the children of
    the pagination widget (empty for any other element). *)
Record Element : Type := {
  el_id : string;
  el_rmPagination : bool;
  el_offsetTop : Z;
  el_scrollHeight : Z;
  el_breaks : list RenderedBreak;
}.

(** The elements visited by [for (let i = 2; i < children.length - 1; i++)]. *)
Definition content_range (children : list Element) : list Element :=
  drop 2 (take (length children - 1) children).

(** ** Footer text resolution *)

(** [arr[i]] *)
Definition js_index (arr : list string) (i : Z) : option string :=
  if (i <? 0)%Z then None else arr !! Z.to_nat i.

(** [a || b] where either side may be [undefined] *)
Definition js_or (a b : option string) : option string :=
  match a with
  | Some s => if s =? "" then b else a
  | None => b
  end.

Module Base.

(** the footer text logic of [pageBreakDefinition] *)
Definition resolveFooterText (ft : FooterText) (pageIndex : Z) : string :=
  match ft with
  | FooterString s => s
  | FooterArray l =>
      if (0 <? Z.of_nat (length l))%Z then
        default "" (js_or (js_or (js_index l pageIndex)
                                 (js_index l (Z.of_nat (length l) - 1)))
                          (Some ""))
      else ""
  | FooterFunction f => f (Fin pageIndex + Fin 1)%num
  end.

End Base.

Module Responsive.

(** the footer text logic of [createPageBreak] *)
Definition resolveFooterText (ft : FooterText) (pageIndex : Z) : string :=
  match ft with
  | FooterString s => s
  | FooterArray l =>
      default "" (js_or (js_or (js_index l pageIndex)
                               (js_index l (Z.of_nat (length l) - 1)))
                        (Some ""))
  | FooterFunction f => f (Fin pageIndex + Fin 1)%num
  end.

End Responsive.

(** ** Page count estimation and break synthesis *)

(** The editor view as the widget callback reads it: [view.dom.children]
    and [view.dom.clientWidth].  The document holds one editor, so
    [document.querySelector("[data-rm-pagination]")] looks among these
    children. *)
Record View : Type := {
  dom_children : list Element;
  clientWidth : Z;
}.

Definition _extraPages : Z := 5.

(** [for (let i = 2; i < childElements.length - 1; i++)
       totalHeight += childElements[i].scrollHeight] *)
Definition totalHeight (childElements : list Element) : Z :=
  foldl (fun acc e => acc + el_scrollHeight e)%Z 0%Z (content_range childElements).

(** [document.querySelector("[data-rm-pagination]")] *)
Definition paginationElement (childElements : list Element) : option Element :=
  find el_rmPagination childElements.

(** [paginationElement ? paginationElement.children.length : 0] *)
Definition renderedCount (pe : option Element) : Z :=
  match pe with
  | Some e => Z.of_nat (length (el_breaks e))
  | None => 0
  end.

(** [previousPageCount > _extraPages ? previousPageCount - _extraPages : 0] *)
Definition previousPageCount (rendered : Z) : Z :=
  if (rendered >? _extraPages)%Z then (rendered - _extraPages)%Z else 0%Z.

(** The page count computed by the widget callback of [createDecoration],
    from the sampled height and the number of breaks rendered before. *)
Definition pages (o : PaginationPlusOptions) (totalHeight rendered : Z) : num :=
  let _pageGap := pageGap o in
  let _pageHeaderHeight := pageHeaderHeight o in
  let _pageFooterHeight := pageFooterHeight o in
  let _pageHeight := (pageHeight o - (_pageHeaderHeight + _pageFooterHeight))%num in
  let _pageGapBorderSize := pageGapBorderSize o in
  let previousPageCount := previousPageCount rendered in
  let totalPageGap := (_pageGap + _pageHeaderHeight + _pageFooterHeight)%num in
  let actualPageContentHeight :=
    (Fin totalHeight - Fin previousPageCount * (totalPageGap + _pageGapBorderSize * Fin 2))%num in
  let pages := ceil_div actualPageContentHeight _pageHeight in
  if (pages >? Fin 0)%num then (pages - Fin 1)%num else Fin 0.

(** [for (let i = 0; i < bound; i++) fragment.appendChild(mk(i))].  The
    bound can be [Infinity]; the loop then never ends, and no amount of
    fuel yields a fragment. *)
Fixpoint appendBreaks (fuel : nat) (i : Z) (bound : num) (mk : Z -> PageBreak)
    (fragment : list PageBreak) : option (list PageBreak) :=
  match fuel with
  | O => None
  | S fuel' =>
      if (Fin i <? bound)%num
      then appendBreaks fuel' (i + 1)%Z bound mk (fragment ++ [mk i])
      else Some fragment
  end.

Module BaseSynth.

(** [pageBreakDefinition({ firstPage, lastPage, pageIndex })] *)
Definition pageBreakDefinition (pageOptions : PaginationPlusOptions) (breakerWidth : Z)
    (firstPage : bool) (pageIndex : Z) : PageBreak :=
  let _pageHeaderHeight := pageHeaderHeight pageOptions in
  let _pageFooterHeight := pageFooterHeight pageOptions in
  let _pageHeight := (pageHeight pageOptions - (_pageHeaderHeight + _pageFooterHeight))%num in
  {| page_marginTop :=
       if firstPage then CalcSum _pageHeaderHeight _pageHeight else Px _pageHeight;
     page_paddingLeft := Some (pageMarginLeft pageOptions);
     breaker_width := Px (Fin breakerWidth);
     footer_height := _pageFooterHeight;
     footer_text := Base.resolveFooterText (footerText pageOptions) pageIndex;
     gap_height := pageGap pageOptions;
     gap_background := pageBreakBackground pageOptions;
     header_height := _pageHeaderHeight |}.

(** the loop that fills [fragment], for the page count [pages] *)
Definition fragment (fuel : nat) (pageOptions : PaginationPlusOptions) (breakerWidth : Z)
    (pages : num) : option (list PageBreak) :=
  appendBreaks fuel 0 (pages + Fin _extraPages)%num
    (fun i => if (i =? 0)%Z
              then pageBreakDefinition pageOptions breakerWidth true i
              else pageBreakDefinition pageOptions breakerWidth false i)
    [].

(** the widget callback of [createDecoration]: the children of the
    [#pages] element it returns *)
Definition pageWidget (fuel : nat) (pageOptions : PaginationPlusOptions) (view : View)
    : option (list PageBreak) :=
  let childElements := dom_children view in
  let pages := pages pageOptions (totalHeight childElements)
                     (renderedCount (paginationElement childElements)) in
  let breakerWidth := clientWidth view in
  fragment fuel pageOptions breakerWidth pages.

End BaseSynth.

Module ResponsiveSynth.

(** [createPageBreak({ firstPage, pageIndex, pageOptions })] *)
Definition createPageBreak (firstPage : bool) (pageIndex : Z)
    (pageOptions : PaginationPlusOptions) : PageBreak :=
  let _pageHeaderHeight := pageHeaderHeight pageOptions in
  let _pageFooterHeight := pageFooterHeight pageOptions in
  let _pageMarginLeft := pageMarginLeft pageOptions in
  let _pageMarginRight := pageMarginRight pageOptions in
  let _pageHeight := (pageHeight pageOptions - (_pageHeaderHeight + _pageFooterHeight))%num in
  {| page_marginTop :=
       if firstPage then CalcSum _pageHeaderHeight _pageHeight else Px _pageHeight;
     page_paddingLeft := None;
     breaker_width := FullPlus (_pageMarginLeft + _pageMarginRight)%num;
     footer_height := _pageFooterHeight;
     footer_text := Responsive.resolveFooterText (footerText pageOptions) pageIndex;
     gap_height := pageGap pageOptions;
     gap_background := pageBreakBackground pageOptions;
     header_height := _pageHeaderHeight |}.

(** the loop that fills [fragment], for the page count [pages] *)
Definition fragment (fuel : nat) (pageOptions : PaginationPlusOptions) (pages : num)
    : option (list PageBreak) :=
  appendBreaks fuel 0 (pages + Fin _extraPages)%num
    (fun i => createPageBreak (i =? 0)%Z i pageOptions)
    [].

(** the widget callback of [createDecoration] *)
Definition pageWidget (fuel : nat) (pageOptions : PaginationPlusOptions) (view : View)
    : option (list PageBreak) :=
  let childElements := dom_children view in
  let pages := pages pageOptions (totalHeight childElements)
                     (renderedCount (paginationElement childElements)) in
  fragment fuel pageOptions pages.

End ResponsiveSynth.

(** ** The estimator as the specification words it *)

(** "divides ... rounding up": the quotient, plus one when the division
    leaves a remainder. *)
Definition round_up (x y : Z) : Z :=
  if (x mod y =? 0)%Z then (x / y)%Z else (x / y + 1)%Z.

(** Division rounding up on numbers: [round_up] on two integers with a
    non-zero divisor, what JavaScript yields in the remaining cases. *)
Definition div_rounding_up (a b : num) : num :=
  match a, b with
  | Fin x, Fin y => if (y =? 0)%Z then ceil_div a b else Fin (round_up x y)
  | _, _ => ceil_div a b
  end.

(** The estimate following the specification: overhead
    [max(0, previousPageCount - 5) * (gap + header + footer + 2 * borderSize)],
    content band [pageHeight - header - footer], the ceiling of the
    quotient, decremented by one when positive and zero otherwise. *)
Definition spec_estimate (o : PaginationPlusOptions) (sampledHeight previousPageCount : Z) : num :=
  let headroom := 5%Z in
  let overhead :=
    (max0 (Fin previousPageCount - Fin headroom)
     * (pageGap o + pageHeaderHeight o + pageFooterHeight o + Fin 2 * pageGapBorderSize o))%num in
  let contentBand := (pageHeight o - pageHeaderHeight o - pageFooterHeight o)%num in
  let ceiling := div_rounding_up (Fin sampledHeight - overhead)%num contentBand in
  if (ceiling >? Fin 0)%num then (ceiling - Fin 1)%num else Fin 0.

(** Valid geometry: every height, gap and margin is a non-negative
    (finite) number, and the page is taller than its header and footer
    bands together. *)
Definition nonneg (a : num) : bool :=
  match a with Fin z => (0 <=? z)%Z | _ => false end.

Definition valid_geometry (o : PaginationPlusOptions) : bool :=
  nonneg (pageHeight o) && nonneg (pageGap o) && nonneg (pageGapBorderSize o)
  && nonneg (pageHeaderHeight o) && nonneg (pageFooterHeight o)
  && nonneg (pageMarginLeft o) && nonneg (pageMarginRight o)
  && (pageHeaderHeight o + pageFooterHeight o <? pageHeight o)%num.

(** What the synthesis loop of a revision yields for the page count [n]:
    one fragment of [n + 5] breaks, whatever fuel beyond [n + 5] is given,
    its break at every index built for that page index. *)
Definition emits (loop : nat -> option (list PageBreak)) (mk : Z -> PageBreak) (n : Z) : Prop :=
  exists fragment : list PageBreak,
    length fragment = Z.to_nat (n + 5) /\
    (forall i : nat, (i < Z.to_nat (n + 5))%nat -> fragment !! i = Some (mk (Z.of_nat i))) /\
    forall fuel : nat, (Z.to_nat (n + 5) < fuel)%nat -> loop fuel = Some fragment.

(** The whole widget callback on a sample tree: two pages estimated, seven
    breaks drawn. *)
Definition sample_view : View := {|
  dom_children :=
    [ {| el_id := "pages"; el_rmPagination := true; el_offsetTop := 0;
         el_scrollHeight := 0; el_breaks := [] |};
      {| el_id := ""; el_rmPagination := false; el_offsetTop := 0;
         el_scrollHeight := 10; el_breaks := [] |};
      {| el_id := ""; el_rmPagination := false; el_offsetTop := 10;
         el_scrollHeight := 1200; el_breaks := [] |};
      {| el_id := ""; el_rmPagination := false; el_offsetTop := 1210;
         el_scrollHeight := 900; el_breaks := [] |};
      {| el_id := ""; el_rmPagination := false; el_offsetTop := 2110;
         el_scrollHeight := 10; el_breaks := [] |} ];
  clientWidth := 600;
|}.

(** ** Footer text *)


(** ** The extension and its commands *)

(** The values the injected style rules are derived from. *)
Record StyleSheet : Type := {
  css_headerHeight : num;
  css_footerHeight : num;
  css_marginLeft : num;
  css_marginRight : num;
  css_contentHeight : num;
}.

Inductive ConsoleEntry : Type :=
| ConsoleError (message : string)
| ConsoleLog (message : string).

(** The extension instance: [this.options], [this.storage.styleElement]
    ([None] for [null], otherwise the rules it holds), the console, and the
    transactions handed to [editor.view.dispatch]. *)
Record Extension : Type := {
  options : PaginationPlusOptions;
  styleElement : option StyleSheet;
  console : list ConsoleEntry;
  dispatched : list Transaction;
}.

Definition set_pageMarginLeft (v : num) (o : PaginationPlusOptions) : PaginationPlusOptions :=
  {| pageHeight := pageHeight o; pageGap := pageGap o;
     pageBreakBackground := pageBreakBackground o;
     pageHeaderHeight := pageHeaderHeight o; pageFooterHeight := pageFooterHeight o;
     pageMarginLeft := v; pageMarginRight := pageMarginRight o;
     pageGapBorderSize := pageGapBorderSize o; footerText := footerText o |}.

Definition set_pageMarginRight (v : num) (o : PaginationPlusOptions) : PaginationPlusOptions :=
  {| pageHeight := pageHeight o; pageGap := pageGap o;
     pageBreakBackground := pageBreakBackground o;
     pageHeaderHeight := pageHeaderHeight o; pageFooterHeight := pageFooterHeight o;
     pageMarginLeft := pageMarginLeft o; pageMarginRight := v;
     pageGapBorderSize := pageGapBorderSize o; footerText := footerText o |}.

Definition set_pageHeaderHeight (v : num) (o : PaginationPlusOptions) : PaginationPlusOptions :=
  {| pageHeight := pageHeight o; pageGap := pageGap o;
     pageBreakBackground := pageBreakBackground o;
     pageHeaderHeight := v; pageFooterHeight := pageFooterHeight o;
     pageMarginLeft := pageMarginLeft o; pageMarginRight := pageMarginRight o;
     pageGapBorderSize := pageGapBorderSize o; footerText := footerText o |}.

Definition set_pageFooterHeight (v : num) (o : PaginationPlusOptions) : PaginationPlusOptions :=
  {| pageHeight := pageHeight o; pageGap := pageGap o;
     pageBreakBackground := pageBreakBackground o;
     pageHeaderHeight := pageHeaderHeight o; pageFooterHeight := v;
     pageMarginLeft := pageMarginLeft o; pageMarginRight := pageMarginRight o;
     pageGapBorderSize := pageGapBorderSize o; footerText := footerText o |}.

(** [field !== undefined && (typeof field !== "number" || field < 0)] *)
Definition rejected (field : jsval) : bool :=
  defined field &&
  (negb (typeof_number field) ||
   match field with JNumber n => (n <? Fin 0)%num | _ => false end).

(** [if (field !== undefined) this.options.X = field]; past validation a
    defined field holds a number. *)
Definition assign (field : jsval) (set : num -> PaginationPlusOptions -> PaginationPlusOptions)
    (o : PaginationPlusOptions) : PaginationPlusOptions :=
  match field with
  | JNumber n => set n o
  | _ => o
  end.

(** the four assignments under "Update the options" *)
Definition updateOptions (margins : MarginUpdate) (o : PaginationPlusOptions)
    : PaginationPlusOptions :=
  let o := assign (left margins) set_pageMarginLeft o in
  let o := assign (right margins) set_pageMarginRight o in
  let o := assign (top margins) set_pageHeaderHeight o in
  assign (bottom margins) set_pageFooterHeight o.

(** the rules derived from the current options *)
Definition styleRules (o : PaginationPlusOptions) : StyleSheet :=
  let _pageHeaderHeight := pageHeaderHeight o in
  let _pageFooterHeight := pageFooterHeight o in
  {| css_headerHeight := _pageHeaderHeight;
     css_footerHeight := _pageFooterHeight;
     css_marginLeft := pageMarginLeft o;
     css_marginRight := pageMarginRight o;
     css_contentHeight := (pageHeight o - (_pageHeaderHeight + _pageFooterHeight))%num |}.

(** [if (styleElement) styleElement.textContent = ...] *)
Definition updateStyles (o : PaginationPlusOptions) (style : option StyleSheet)
    : option StyleSheet :=
  match style with
  | Some _ => Some (styleRules o)
  | None => None
  end.

Definition reportError (message : string) (ext : Extension) : bool * Extension :=
  (false, {| options := options ext; styleElement := styleElement ext;
             console := console ext ++ [ConsoleError message];
             dispatched := dispatched ext |}).

(** the four field checks, in source order *)
Definition validate (margins : MarginUpdate) : option string :=
  if rejected (left margins) then Some "Left margin must be a non-negative number"
  else if rejected (right margins) then Some "Right margin must be a non-negative number"
  else if rejected (top margins)
    then Some "Top margin (header height) must be a non-negative number"
  else if rejected (bottom margins)
    then Some "Bottom margin (footer height) must be a non-negative number"
  else None.

Module BaseCommands.

(** [updatePageMargins(margins)]; [None] stands for an argument that is
    falsy or not an object. *)
Definition updatePageMargins (margins : option MarginUpdate) (ext : Extension)
    : bool * Extension :=
  match margins with
  | None => reportError "Margins parameter must be an object" ext
  | Some margins =>
      match validate margins with
      | Some message => reportError message ext
      | None =>
          let o := updateOptions margins (options ext) in
          (true,
           {| options := o;
              styleElement := updateStyles o (styleElement ext);
              console := console ext ++ [ConsoleLog "Page margins updated successfully:"];
              dispatched := dispatched ext
                            ++ [setMeta state_tr pagination_meta_key (JBool true)] |})
      end
  end.

End BaseCommands.

Module ResponsiveCommands.

(** [updatePageMargins(margins)] *)
Definition updatePageMargins (margins : MarginUpdate) (ext : Extension)
    : bool * Extension :=
  match validate margins with
  | Some message => reportError message ext
  | None =>
      let o := updateOptions margins (options ext) in
      (true,
       {| options := o;
          styleElement := updateStyles o (styleElement ext);
          console := console ext;
          dispatched := dispatched ext
                        ++ [setMeta state_tr pagination_meta_key (JBool true)] |})
  end.

(** [refreshPagination()]: the command itself only dispatches a
    transaction tagged with the resize key. *)
Definition refreshPagination (ext : Extension) : bool * Extension :=
  (true,
   {| options := options ext; styleElement := styleElement ext;
      console := console ext;
      dispatched := dispatched ext ++ [setMeta state_tr resize_meta_key (JBool true)] |}).

End ResponsiveCommands.

Definition new_extension : Extension :=
  {| options := addOptions; styleElement := Some (styleRules addOptions);
     console := []; dispatched := [] |}.

(** ** Margin updates: failure and frame *)

(** A provided field that the four checks refuse: it is present and is
    either not of type number, or a number below zero.  [NaN] has type
    number and is not below zero, so it is not among them. *)
Definition below_zero_or_other_type (field : jsval) : Prop :=
  match field with
  | JUndefined => False
  | JNumber n => (n <? Fin 0)%num = true
  | _ => True
  end.

Definition some_field_refused (margins : MarginUpdate) : Prop :=
  below_zero_or_other_type (left margins) \/ below_zero_or_other_type (right margins) \/
  below_zero_or_other_type (top margins) \/ below_zero_or_other_type (bottom margins).

(** What a failed command leaves alone: the options, the style rules and
    the dispatch queue. *)
Definition failed_unchanged (ext : Extension) (r : bool * Extension) : Prop :=
  fst r = false /\
  options (snd r) = options ext /\
  styleElement (snd r) = styleElement ext /\
  dispatched (snd r) = dispatched ext /\
  exists message, console (snd r) = console ext ++ [ConsoleError message].

(** What a successful command may change in the options. *)
Definition provided (field : jsval) (before after : num) : Prop :=
  (field = JUndefined -> after = before) /\
  (forall n, field = JNumber n -> after = n).

Definition margins_frame (margins : MarginUpdate) (o o' : PaginationPlusOptions) : Prop :=
  pageHeight o' = pageHeight o /\
  pageGap o' = pageGap o /\
  pageGapBorderSize o' = pageGapBorderSize o /\
  pageBreakBackground o' = pageBreakBackground o /\
  footerText o' = footerText o /\
  provided (left margins) (pageMarginLeft o) (pageMarginLeft o') /\
  provided (right margins) (pageMarginRight o) (pageMarginRight o') /\
  provided (top margins) (pageHeaderHeight o) (pageHeaderHeight o') /\
  provided (bottom margins) (pageFooterHeight o) (pageFooterHeight o').

Definition left_minus_one : MarginUpdate :=
  {| left := JNumber (Fin (-1)); right := JUndefined; top := JUndefined; bottom := JUndefined |}.

Definition top_20_right_30 : MarginUpdate :=
  {| left := JUndefined; right := JNumber (Fin 30); top := JNumber (Fin 20);
     bottom := JUndefined |}.

(** ** Page boundaries and the terminal page *)

(** The editor's root element: its children and the [min-height] the
    engine has set on it, in pixels ([None] while unset). *)
Record Root : Type := {
  root_children : list Element;
  root_minHeight : option num;
}.

(** [Array.from(targetNode.children).find((child) => child.id === "pages")] *)
Definition findPages (children : list Element) : option Element :=
  find (fun child => el_id child =? "pages") children.

(** [pageElements.map((el) => el.offsetTop).filter((top) => top !== 0)]
    followed by [pageTops.push(Number.POSITIVE_INFINITY)] *)
Definition pageTops (offsetTops : list Z) : list num :=
  map Fin (filter (fun top => top <> 0%Z) offsetTops) ++ [PInf].

(** The inner loop over [j], from index [j] on:
    [if (top >= pageTops[j] && top < pageTops[j + 1]) { add(j + 1); break }] *)
Fixpoint bucket (pageTops : list num) (j : Z) (top : num) : option Z :=
  match pageTops with
  | lower :: (upper :: _) as rest =>
      if (top >=? lower)%num && (top <? upper)%num
      then Some (j + 1)%Z
      else bucket rest (j + 1)%Z top
  | _ => None
  end.

(** The outer loop: the set of page numbers that hold a content element. *)
Definition pagesWithContent (pageTops : list num) (contentElements : list Element)
    : gset Z :=
  foldl (fun acc el =>
           match bucket pageTops 0 (Fin (el_offsetTop el)) with
           | Some page => acc ∪ {[ page ]}
           | None => acc
           end)
        ∅ (content_range contentElements).

(** [Math.max(...values)] *)
Definition math_max (values : list Z) : num :=
  foldr (fun v acc => if (acc <? Fin v)%num then Fin v else acc) NInf values.

(** [pagesWithContent.size > 0 ? Math.max(...Array.from(pagesWithContent)) : 0] *)
Definition maxPage (pagesWithContent : gset Z) : num :=
  if (0 <? Z.of_nat (size pagesWithContent))%Z
  then math_max (elements pagesWithContent)
  else Fin 0.

(** [_maxPage * pageHeight + (_maxPage - 1) * (pageGap + 2 * pageGapBorderSize)] *)
Definition minHeight (maxPage _pageHeight _pageGap _pageGapBorderSize : num) : num :=
  let _maxPage := (maxPage + Fin 2)%num in
  (_maxPage * _pageHeight + (_maxPage - Fin 1) * (_pageGap + Fin 2 * _pageGapBorderSize))%num.

Definition add_last_page (b : RenderedBreak) : RenderedBreak :=
  {| rb_break := rb_break b; rb_pageTop := rb_pageTop b; rb_lastPage := true |}.

(** [target.children[maxPage + 1].classList.add("last-page")] when that
    child exists *)
Definition markLastPage (maxPage : num) (breaks : list RenderedBreak) : list RenderedBreak :=
  match (maxPage + Fin 1)%num with
  | Fin k =>
      if (0 <=? k)%Z && (k <? Z.of_nat (length breaks))%Z
      then alter add_last_page (Z.to_nat k) breaks
      else breaks
  | _ => breaks
  end.

(** write the changed widget back in place of the first [#pages] child *)
Fixpoint replacePages (target : Element) (children : list Element) : list Element :=
  match children with
  | [] => []
  | child :: rest =>
      if el_id child =? "pages" then target :: rest
      else child :: replacePages target rest
  end.

(** The body shared by both revisions of [refreshPage].  [restyle] is what
    the revision does to every break after marking the terminal page. *)
Definition refreshPageWith (_pageHeight _pageGap _pageGapBorderSize : num)
    (restyle : RenderedBreak -> RenderedBreak) (targetNode : Root) : Root :=
  match findPages (root_children targetNode) with
  | None => targetNode
  | Some target =>
      let contentElements := root_children targetNode in
      let pageTops := pageTops (map rb_pageTop (el_breaks target)) in
      let pagesWithContent := pagesWithContent pageTops contentElements in
      let maxPage := maxPage pagesWithContent in
      let breaks := map restyle (markLastPage maxPage (el_breaks target)) in
      let target' :=
        {| el_id := el_id target; el_rmPagination := el_rmPagination target;
           el_offsetTop := el_offsetTop target; el_scrollHeight := el_scrollHeight target;
           el_breaks := breaks |} in
      {| root_children := replacePages target' contentElements;
         root_minHeight := Some (minHeight maxPage _pageHeight _pageGap _pageGapBorderSize) |}
  end.

Module BasePage.

(** The constants [_pageGap] and [_pageGapBorderSize] that [onCreate]
    reads from the options before it defines [refreshPage]. *)
Record Closure : Type := {
  _pageGap : num;
  _pageGapBorderSize : num;
}.

Definition onCreate (o : PaginationPlusOptions) : Closure :=
  {| _pageGap := pageGap o; _pageGapBorderSize := pageGapBorderSize o |}.

(** [refreshPage(targetNode)]: the page height is read from the live
    options, gap and border from the closure. *)
Definition refreshPage (c : Closure) (o : PaginationPlusOptions) (targetNode : Root) : Root :=
  refreshPageWith (pageHeight o) (_pageGap c) (_pageGapBorderSize c) (fun b => b) targetNode.

End BasePage.

Module ResponsivePage.

(** the breaker widths rewritten at the end of [refreshPage] *)
Definition restyle (o : PaginationPlusOptions) (b : RenderedBreak) : RenderedBreak :=
  let pb := rb_break b in
  {| rb_break :=
       {| page_marginTop := page_marginTop pb; page_paddingLeft := page_paddingLeft pb;
          breaker_width := FullPlus (pageMarginLeft o + pageMarginRight o)%num;
          footer_height := footer_height pb; footer_text := footer_text pb;
          gap_height := gap_height pb; gap_background := gap_background pb;
          header_height := header_height pb |};
     rb_pageTop := rb_pageTop b; rb_lastPage := rb_lastPage b |}.

(** [refreshPage(extension, targetNode)] *)
Definition refreshPage (o : PaginationPlusOptions) (targetNode : Root) : Root :=
  refreshPageWith (pageHeight o) (pageGap o) (pageGapBorderSize o) (restyle o) targetNode.

End ResponsivePage.

(** The height that fits [m + 2] pages with the [m + 1] gaps between them,
    each gap with its two borders. *)
Definition fits_pages (m : Z) (o : PaginationPlusOptions) : num :=
  (Fin (m + 2) * pageHeight o + Fin (m + 1) * (pageGap o + Fin 2 * pageGapBorderSize o))%num.

(** [m] is the highest populated bucket of [populated]; zero when no
    bucket is populated. *)
Definition highest_bucket (populated : gset Z) (m : Z) : Prop :=
  (populated = ∅ -> m = 0%Z) /\
  (populated <> ∅ -> m ∈ populated /\ forall p, p ∈ populated -> (p <= m)%Z).

(** The options after a run of [updatePageMargins] commands of the base
    revision, some of which may fail. *)
Definition after_updates (updates : list (option MarginUpdate)) (ext : Extension) : Extension :=
  foldl (fun e margins => snd (BaseCommands.updatePageMargins margins e)) ext updates.

(** A rendered tree whose three breaks have page offsets 0, 900 and 1800,
    around content blocks at offsets 100, 950 and 1850. *)
Definition block (offsetTop scrollHeight : Z) : Element :=
  {| el_id := ""; el_rmPagination := false; el_offsetTop := offsetTop;
     el_scrollHeight := scrollHeight; el_breaks := [] |}.

Definition rendered (o : PaginationPlusOptions) (i offsetTop : Z) : RenderedBreak :=
  {| rb_break := ResponsiveSynth.createPageBreak (i =? 0)%Z i o;
     rb_pageTop := offsetTop; rb_lastPage := false |}.

Definition boundary_root : Root := {|
  root_children :=
    [ {| el_id := "pages"; el_rmPagination := true; el_offsetTop := 0;
         el_scrollHeight := 0;
         el_breaks := [rendered addOptions 0 0; rendered addOptions 1 900;
                       rendered addOptions 2 1800] |};
      block 0 10; block 100 850; block 950 900; block 1850 200; block 2050 10 ];
  root_minHeight := None;
|}.

(** ** The plugin state *)

(** [state.doc.content.size] is all the plugin reads from an editor state. *)
Record EditorState : Type := {
  doc_content_size : nat;
}.

Inductive WidgetKind : Type :=
| PageWidget
| FirstHeaderWidget
| LastFooterWidget.

(** [Decoration.widget(pos, toDOM, { side })] *)
Record Decoration : Type := {
  widget_pos : nat;
  widget_kind : WidgetKind;
  widget_side : Z;
}.

(** A decoration set is an object: [ds_object] is its identity, so that
    "the same set" and "a set built anew" differ even when they hold the
    same widgets. *)
Record DecorationSet : Type := {
  ds_object : nat;
  ds_widgets : list Decoration;
}.

(** The object store: the next free identity, and how many times
    [createDecoration] has run. *)
Record Store : Type := {
  next_object : nat;
  syntheses : nat;
}.

(** [createDecoration(state, pageOptions)]: the three widgets.  Their
    callbacks run when the view draws them. *)
Definition createDecoration (state : EditorState) (s : Store) : list Decoration * Store :=
  ([ {| widget_pos := 0; widget_kind := PageWidget; widget_side := -1 |};
     {| widget_pos := 0; widget_kind := FirstHeaderWidget; widget_side := -1 |};
     {| widget_pos := doc_content_size state; widget_kind := LastFooterWidget;
        widget_side := 1 |} ],
   {| next_object := next_object s; syntheses := S (syntheses s) |}).

(** [DecorationSet.create(doc, widgetList)] *)
Definition DecorationSet_create (widgetList : list Decoration) (s : Store)
    : DecorationSet * Store :=
  ({| ds_object := next_object s; ds_widgets := widgetList |},
   {| next_object := S (next_object s); syntheses := syntheses s |}).

Definition resynthesize (newState : EditorState) (s : Store) : DecorationSet * Store :=
  let (widgetList, s) := createDecoration newState s in
  DecorationSet_create widgetList s.

Module BasePlugin.

(** [apply(tr, oldDeco, oldState, newState)] *)
Definition apply (tr : Transaction) (oldDeco : DecorationSet)
    (oldState newState : EditorState) (s : Store) : DecorationSet * Store :=
  if docChanged tr || truthy (getMeta tr pagination_meta_key)
  then resynthesize newState s
  else (oldDeco, s).

End BasePlugin.

Module ResponsivePlugin.

(** [apply(tr, oldDeco, oldState, newState)] *)
Definition apply (tr : Transaction) (oldDeco : DecorationSet)
    (oldState newState : EditorState) (s : Store) : DecorationSet * Store :=
  if docChanged tr || truthy (getMeta tr pagination_meta_key)
     || truthy (getMeta tr resize_meta_key)
  then resynthesize newState s
  else (oldDeco, s).

End ResponsivePlugin.

Definition selection_only : Transaction :=
  {| docChanged := false; meta := {[ "addToHistory" := JBool false ]} |}.

Definition old_deco : DecorationSet := {| ds_object := 7; ds_widgets := [] |}.
Definition some_state : EditorState := {| doc_content_size := 12 |}.
Definition some_store : Store := {| next_object := 8; syntheses := 3 |}.

(** ** The editor around the plugin: redrawing after a tagged transaction *)

Section Editor.

(** The browser's layout of a mounted widget: the [offsetTop] of the
    [.page] element of its [i]-th break. *)
Variable pageOffsetTop : list PageBreak -> nat -> Z.

Record Editor : Type := {
  ed_ext : Extension;
  ed_state : EditorState;
  ed_deco : DecorationSet;
  ed_store : Store;
  ed_view : View;
}.

(** the [#pages] element the widget callback returns, once mounted *)
Definition pagesElement (breaks : list PageBreak) : Element :=
  {| el_id := "pages"; el_rmPagination := true; el_offsetTop := 0; el_scrollHeight := 0;
     el_breaks :=
       imap (fun i b => {| rb_break := b; rb_pageTop := pageOffsetTop breaks i;
                           rb_lastPage := false |}) breaks |}.

(** the view puts the widget at the start of the root, in place of the
    widget it drew before *)
Definition mount (widget : Element) (children : list Element) : list Element :=
  match children with
  | old :: rest => if el_rmPagination old then widget :: rest else widget :: children
  | [] => [widget]
  end.

(** The view draws the page widget of a new decoration set: the callback
    runs against the tree as it stands, previous widget included.  The
    content blocks keep their measures: the content has not changed. *)
Definition redraw (fuel : nat) (o : PaginationPlusOptions) (view : View) : option View :=
  match ResponsiveSynth.pageWidget fuel o view with
  | Some breaks =>
      Some {| dom_children := mount (pagesElement breaks) (dom_children view);
              clientWidth := clientWidth view |}
  | None => None
  end.

(** [editor.view.dispatch(tr)] for a transaction that leaves the document
    alone: the plugin state is updated, and the view redraws the widgets
    when [createDecoration] has made new ones. *)
Definition dispatch (fuel : nat) (tr : Transaction) (ed : Editor) : option Editor :=
  let (deco, store) :=
    ResponsivePlugin.apply tr (ed_deco ed) (ed_state ed) (ed_state ed) (ed_store ed) in
  if (syntheses store =? syntheses (ed_store ed))%nat
  then Some {| ed_ext := ed_ext ed; ed_state := ed_state ed; ed_deco := deco;
               ed_store := store; ed_view := ed_view ed |}
  else
    match redraw fuel (options (ed_ext ed)) (ed_view ed) with
    | Some view =>
        Some {| ed_ext := ed_ext ed; ed_state := ed_state ed; ed_deco := deco;
                ed_store := store; ed_view := view |}
    | None => None
    end.

Fixpoint deliver (fuel : nat) (sent : list Transaction) (ed : Editor) : option Editor :=
  match sent with
  | [] => Some ed
  | tr :: sent =>
      match dispatch fuel tr ed with
      | Some ed => deliver fuel sent ed
      | None => None
      end
  end.

(** Running a command in the editor: the command acts on the extension,
    and the transactions it has dispatched are delivered. *)
Definition run (fuel : nat) (command : Extension -> bool * Extension) (ed : Editor)
    : option Editor :=
  let (_, ext) := command (ed_ext ed) in
  let sent := drop (length (dispatched (ed_ext ed))) (dispatched ext) in
  deliver fuel sent
    {| ed_ext := ext; ed_state := ed_state ed; ed_deco := ed_deco ed;
       ed_store := ed_store ed; ed_view := ed_view ed |}.

(** [editor.commands.refreshPagination()] *)
Definition refreshPagination (fuel : nat) (ed : Editor) : option Editor :=
  run fuel ResponsiveCommands.refreshPagination ed.

(** The layout on screen: the breaks of the rendered widget. *)
Definition layoutOf (ed : Editor) : list PageBreak :=
  match paginationElement (dom_children (ed_view ed)) with
  | Some widget => map rb_break (el_breaks widget)
  | None => []
  end.

Definition footerTexts (ed : Editor) : list string := map footer_text (layoutOf ed).

(** the rendered tree starts with the pagination widget *)
Definition widget_first (ed : Editor) : Prop :=
  exists widget rest,
    dom_children (ed_view ed) = widget :: rest /\ el_rmPagination widget = true.

End Editor.

(** An editor showing 10000 pixels of content behind the five breaks of
    the initial draw, with default options. *)
Definition five_breaks : list RenderedBreak :=
  map (fun i => rendered addOptions i (790 + i * 852)) (seqZ 0 5).

Definition long_document : Editor := {|
  ed_ext := new_extension;
  ed_state := {| doc_content_size := 40 |};
  ed_deco := {| ds_object := 0; ds_widgets := fst (createDecoration {| doc_content_size := 40 |}
                                                     {| next_object := 0; syntheses := 0 |}) |};
  ed_store := {| next_object := 1; syntheses := 1 |};
  ed_view :=
    {| dom_children :=
         [ {| el_id := "pages"; el_rmPagination := true; el_offsetTop := 0;
              el_scrollHeight := 0; el_breaks := five_breaks |};
           block 0 10; block 10 10000; block 10010 10 ];
       clientWidth := 600 |};
|}.

Definition even_layout (breaks : list PageBreak) (i : nat) : Z := (790 + Z.of_nat i * 852)%Z.

(** The breaks synthesized for an estimate of [n] pages. *)
Definition synthesized (o : PaginationPlusOptions) (n : Z) : list PageBreak :=
  map (fun i => ResponsiveSynth.createPageBreak (i =? 0)%Z i o) (seqZ 0 (n + 5)).

Definition after_first_refresh : Editor :=
  default long_document (refreshPagination even_layout 40 long_document).

Definition after_second_refresh : Editor :=
  default long_document (refreshPagination even_layout 40 after_first_refresh).

Definition settled_document : Editor := after_second_refresh.

(** ** Runs of commands, and what an accepted update looks like *)

(** A field the checks let through: absent, or a number that is not below
    zero. *)
Definition acceptable (field : jsval) : Prop :=
  field = JUndefined \/ exists n, field = JNumber n /\ (n <? Fin 0)%num = false.

Definition all_acceptable (margins : MarginUpdate) : Prop :=
  acceptable (left margins) /\ acceptable (right margins) /\
  acceptable (top margins) /\ acceptable (bottom margins).

(** One update after another, seen as a single update: a field of the
    second wins where it is provided. *)
Definition later (first second : jsval) : jsval :=
  if defined second then second else first.

Definition mergeMargins (m1 m2 : MarginUpdate) : MarginUpdate :=
  {| left := later (left m1) (left m2); right := later (right m1) (right m2);
     top := later (top m1) (top m2); bottom := later (bottom m1) (bottom m2) |}.

(** The commands of the responsive revision. *)
Inductive Command : Type :=
| UpdatePageMargins (margins : MarginUpdate)
| RefreshPagination.

Definition exec (c : Command) (ext : Extension) : bool * Extension :=
  match c with
  | UpdatePageMargins margins => ResponsiveCommands.updatePageMargins margins ext
  | RefreshPagination => ResponsiveCommands.refreshPagination ext
  end.

Definition execAll (cs : list Command) (ext : Extension) : Extension :=
  foldl (fun e c => snd (exec c e)) ext cs.

(** The injected rules are those derived from the options in force. *)
Definition style_in_sync (ext : Extension) : Prop :=
  forall rules, styleElement ext = Some rules -> rules = styleRules (options ext).

(** No margin option is below zero. *)
Definition not_below_zero (n : num) : Prop := (n <? Fin 0)%num = false.

Definition margins_not_below_zero (o : PaginationPlusOptions) : Prop :=
  not_below_zero (pageMarginLeft o) /\ not_below_zero (pageMarginRight o) /\
  not_below_zero (pageHeaderHeight o) /\ not_below_zero (pageFooterHeight o).

(** Every band of a break has the height the options give it. *)
Definition bands_follow (o : PaginationPlusOptions) (b : PageBreak) : Prop :=
  header_height b = pageHeaderHeight o /\
  footer_height b = pageFooterHeight o /\
  gap_height b = pageGap o /\
  gap_background b = pageBreakBackground o.

Definition top_790 : MarginUpdate :=
  {| left := JUndefined; right := JUndefined; top := JNumber (Fin 790); bottom := JUndefined |}.

Definition once_updated : Extension :=
  snd (ResponsiveCommands.updatePageMargins top_20_right_30 new_extension).

Definition empty_view : View := {| dom_children := []; clientWidth := 600 |}.

(** The parts of a break compared between the two revisions: top margin
    of the page, footer height and text, gap height and background, header
    height. *)
Definition shared_geometry (b : PageBreak)
    : css_length * num * string * num * string * num :=
  (page_marginTop b, footer_height b, footer_text b, gap_height b, gap_background b,
   header_height b).

Definition degenerate_extension : Extension :=
  snd (ResponsiveCommands.updatePageMargins top_790 new_extension).

(** What a refresh leaves of the tree: the number of children, and every
    child that is not a [#pages] element. *)
Definition keeps_content (before after : Root) : Prop :=
  length (root_children after) = length (root_children before) /\
  forall (i : nat) (child : Element),
    root_children before !! i = Some child -> el_id child <> "pages" ->
    root_children after !! i = Some child.


Definition default_closure : BasePage.Closure := BasePage.onCreate addOptions.

Definition bare_root : Root :=
  {| root_children := [block 0 10; block 10 500; block 510 10]; root_minHeight := None |}.

(** The page offsets that take part in the boundaries. *)
Definition nonzeroTops (offsetTops : list Z) : list Z :=
  filter (fun top => top <> 0%Z) offsetTops.

(** The bucket at index [k] of the boundaries holds the offset [t]: it
    starts at or before [t], and the next boundary, when there is one, lies
    beyond [t]. *)
Definition in_bucket (boundaries : list Z) (k : nat) (t : Z) : Prop :=
  exists lo, boundaries !! k = Some lo /\ (lo <= t)%Z /\
             forall hi, boundaries !! S k = Some hi -> (t < hi)%Z.

(** The transactions a command has handed to [dispatch]. *)
Definition sentBy (c : Command) (ext : Extension) : list Transaction :=
  drop (length (dispatched ext)) (dispatched (snd (exec c ext))).

(** The number of breaks on screen after one resynthesis, from the sampled
    height and the number on screen before (zero stands for a callback
    that does not return). *)
Definition nextCount (o : PaginationPlusOptions) (sampled rendered : Z) : Z :=
  match pages o sampled rendered with
  | Fin n => (n + 5)%Z
  | _ => 0%Z
  end.

(** The count after [k] resyntheses in a row over unchanged content. *)
Definition countAfter (o : PaginationPlusOptions) (sampled : Z) (k : nat) (rendered : Z) : Z :=
  Nat.iter k (nextCount o sampled) rendered.

Section Refreshes.

Variable pageOffsetTop : list PageBreak -> nat -> Z.

(** [k] calls of [refreshPagination()] in a row. *)
Fixpoint refreshTimes (fuel : nat) (k : nat) (ed : Editor) : option Editor :=
  match k with
  | O => Some ed
  | S k =>
      match refreshPagination pageOffsetTop fuel ed with
      | Some ed => refreshTimes fuel k ed
      | None => None
      end
  end.

End Refreshes.

(** ** Resize observation and timers of the responsive revision *)

(** The part of [this.storage] that the resize observer uses.  A timer
    handle is a positive integer. *)
Record Storage : Type := {
  resizeTimeout : option positive;
  currentWidth : Z;
}.

(** The timers of the page set by the extension: the next free handle,
    and for each pending timer its handle and the time it is due.  Every
    one of them, when due, dispatches a transaction tagged with the resize
    key. *)
Record Timers : Type := {
  next_handle : positive;
  pending : list (positive * Z);
}.

(** [setTimeout(callback, delay)] at time [now] *)
Definition setTimeout (now delay : Z) (t : Timers) : positive * Timers :=
  (next_handle t,
   {| next_handle := Pos.succ (next_handle t);
      pending := pending t ++ [(next_handle t, now + delay)] |}).

(** [clearTimeout(handle)]; [None] stands for [null] *)
Definition clearTimeout (handle : option positive) (t : Timers) : Timers :=
  match handle with
  | Some h =>
      {| next_handle := next_handle t;
         pending := filter (fun timer => fst timer <> h) (pending t) |}
  | None => t
  end.

(** The running extension: its storage, whether the resize observer is
    connected, whether the style element sits in the document head, the
    timers, and the transactions dispatched so far. *)
Record Runtime : Type := {
  rt_storage : Storage;
  rt_observing : bool;
  rt_styleInHead : bool;
  rt_timers : Timers;
  rt_dispatched : list Transaction;
}.

Definition resize_tr : Transaction := setMeta state_tr resize_meta_key (JBool true).

(** the body of the loop of [resizeCallback], for one entry of width
    [newWidth], at time [now] *)
Definition resizeEntry (now : Z) (rt : Runtime) (newWidth : Z) : Runtime :=
  if Z.abs (newWidth - currentWidth (rt_storage rt)) >? 5 then
    let cleared := clearTimeout (resizeTimeout (rt_storage rt)) (rt_timers rt) in
    let (handle, timers) := setTimeout now 150 cleared in
    {| rt_storage := {| resizeTimeout := Some handle; currentWidth := newWidth |};
       rt_observing := rt_observing rt; rt_styleInHead := rt_styleInHead rt;
       rt_timers := timers; rt_dispatched := rt_dispatched rt |}
  else rt.

(** [resizeCallback(entries)] at time [now] *)
Definition resizeCallback (now : Z) (entries : list Z) (rt : Runtime) : Runtime :=
  foldl (resizeEntry now) rt entries.

(** The clock reaches [now]: every pending timer that is due runs its
    callback, in the order the timers were set. *)
Definition advance (now : Z) (rt : Runtime) : Runtime :=
  let due := filter (fun timer => snd timer <= now) (pending (rt_timers rt)) in
  {| rt_storage := rt_storage rt;
     rt_observing := rt_observing rt; rt_styleInHead := rt_styleInHead rt;
     rt_timers := {| next_handle := next_handle (rt_timers rt);
                     pending := filter (fun timer => ~ snd timer <= now)
                                       (pending (rt_timers rt)) |};
     rt_dispatched := rt_dispatched rt ++ map (fun _ => resize_tr) due |}.

(** The observer reports a resize at time [t]: timers due by then have
    run; the callback runs when the observer is connected. *)
Definition resized (rt : Runtime) (event : Z * list Z) : Runtime :=
  let (t, entries) := event in
  let rt := advance t rt in
  if rt_observing rt then resizeCallback t entries rt else rt.

Definition observe (events : list (Z * list Z)) (rt : Runtime) : Runtime :=
  foldl resized rt events.

Module ResponsiveLife.

(** the storage part of [onCreate] with [setupObservers]:
    [currentWidth] is the client width of the root, the style element is
    appended to the head, and the resize observer is connected when the
    page has [ResizeObserver]. *)
Definition onCreate (clientWidth : Z) (hasResizeObserver : bool) (timers : Timers)
    : Runtime :=
  {| rt_storage := {| resizeTimeout := None; currentWidth := clientWidth |};
     rt_observing := hasResizeObserver;
     rt_styleInHead := true;
     rt_timers := timers;
     rt_dispatched := [] |}.

(** [onDestroy()]: the observer is disconnected, a timer handle held in
    the storage is cleared, the style element is taken out of the head.
    The storage keeps what it held. *)
Definition onDestroy (rt : Runtime) : Runtime :=
  {| rt_storage := rt_storage rt;
     rt_observing := false;
     rt_styleInHead := false;
     rt_timers := clearTimeout (resizeTimeout (rt_storage rt)) (rt_timers rt);
     rt_dispatched := rt_dispatched rt |}.

End ResponsiveLife.

(** The timers are those of the extension alone: at most one is pending,
    and it is the one whose handle the storage holds. *)
Definition one_timer (rt : Runtime) : Prop :=
  pending (rt_timers rt) = [] \/
  exists h due, pending (rt_timers rt) = [(h, due)] /\
                resizeTimeout (rt_storage rt) = Some h.

(** A train of resizes from width [w] and time [t]: each comes less than
    150 after the one before and differs from it by more than 5 in width.
    The observer watches one element, so each callback has one entry. *)
Fixpoint train (t w : Z) (events : list (Z * Z)) : Prop :=
  match events with
  | [] => True
  | (t', w') :: events =>
      t <= t' < t + 150 /\ 5 < Z.abs (w' - w) /\ train t' w' events
  end.

Definition single (event : Z * Z) : Z * list Z := (fst event, [snd event]).

Definition quiet_runtime : Runtime :=
  ResponsiveLife.onCreate 1000 true {| next_handle := 1%positive; pending := [] |}.

(** The runtime between two resizes of a train: the observer is connected,
    the storage holds the width [w], and, once a resize of the train at
    time [t] has armed the timer, exactly that timer is pending, due at
    [t + 150]. *)
Definition between (t w : Z) (armed : bool) (rt : Runtime) : Prop :=
  rt_observing rt = true /\ currentWidth (rt_storage rt) = w /\
  if armed
  then exists h, pending (rt_timers rt) = [(h, t + 150)] /\
                 resizeTimeout (rt_storage rt) = Some h
  else pending (rt_timers rt) = [].

(** Every entry of every event stays within 5 of the width [w]. *)
Definition noise (w : Z) (events : list (Z * list Z)) : Prop :=
  forall t entries, (t, entries) ∈ events ->
    forall newWidth, newWidth ∈ entries -> Z.abs (newWidth - w) <= 5.

Definition two_resizes : list (Z * Z) := [(0, 900); (50, 800)].

(** What the diagnostics of [updatePageMargins] demand of a provided
    field: "must be a non-negative number". *)
Definition is_non_negative_number (field : jsval) : bool :=
  match field with
  | JNumber n => (n >=? Fin 0)%num
  | _ => false
  end.

Definition left_NaN : MarginUpdate :=
  {| left := JNumber NaN; right := JUndefined; top := JUndefined; bottom := JUndefined |}.

(** * Properties

    Lemmas on the embedding, and the theorems that settle the stated
    properties of the engine. *)

Example ceil_div_examples :
  ceil_div (Fin 7) (Fin 2) = Fin 4 /\ ceil_div (Fin (-7)) (Fin 2) = Fin (-3) /\
  ceil_div (Fin 7) (Fin (-2)) = Fin (-3) /\ ceil_div (Fin 6) (Fin 3) = Fin 2 /\
  ceil_div (Fin 1) (Fin 0) = PInf /\ ceil_div (Fin 0) (Fin 0) = NaN.
Proof. repeat split. Qed.

Example to_string_examples :
  to_string (Fin 3) = "3"%string /\ to_string (Fin (-12)) = "-12"%string /\
  to_string (Fin 0) = "0"%string.
Proof. repeat split. Qed.

Example footer_fixed :
  Base.resolveFooterText (FooterString "Confidential") 4 = "Confidential".
Proof. reflexivity. Qed.

Example footer_array_fallback :
  Responsive.resolveFooterText (FooterArray ["A"; "B"]) 5 = "B".
Proof. reflexivity. Qed.

Example footer_function :
  Base.resolveFooterText (FooterFunction (fun i => "Page " ++ to_string i)%string) 2
  = "Page 3".
Proof. reflexivity. Qed.

Example pages_default_10000 :
  pages addOptions 10000 0 = Fin 12 /\ pages addOptions 10000 17 = Fin 11 /\
  pages addOptions 10000 16 = Fin 11 /\ pages addOptions 0 0 = Fin 0 /\
  pages addOptions 780 5 = Fin 0 /\ pages addOptions 781 5 = Fin 1.
Proof. repeat split. Qed.

(** ** Arithmetic facts *)

Section Arithmetic.

Lemma Zceil_div_round_up (x y : Z) : y <> 0%Z -> Zceil_div x y = round_up x y.
Proof.
  intros Hy. unfold Zceil_div, round_up.
  destruct (Z.eqb_spec (x mod y) 0) as [H0 | Hn0].
  - rewrite Z.div_opp_l_z by assumption. lia.
  - rewrite Z.div_opp_l_nz by assumption. lia.
Qed.

(** [Zceil_div x y] is the least integer not below [x / y]. *)
Lemma Zceil_div_bounds (x y : Z) :
  (0 < y)%Z -> (y * (Zceil_div x y - 1) < x <= y * Zceil_div x y)%Z.
Proof.
  intros Hy. unfold Zceil_div.
  pose proof (Z.div_mod (- x) y ltac:(lia)) as Hdm.
  pose proof (Z.mod_pos_bound (- x) y Hy) as Hb.
  nia.
Qed.

Lemma Zceil_div_mono (x1 x2 y : Z) :
  (0 < y)%Z -> (x1 <= x2)%Z -> (Zceil_div x1 y <= Zceil_div x2 y)%Z.
Proof.
  intros Hy Hx. unfold Zceil_div.
  assert ((- x2) / y <= (- x1) / y)%Z by (apply Z.div_le_mono; lia).
  lia.
Qed.

Lemma ceil_div_rounding_up (a b : num) : ceil_div a b = div_rounding_up a b.
Proof.
  destruct a as [x| | |], b as [y| | |]; try reflexivity.
  unfold div_rounding_up. destruct (Z.eqb_spec y 0) as [-> | Hy]; [reflexivity|].
  simpl. destruct (Z.eqb_spec y 0); [contradiction|].
  f_equal. now apply Zceil_div_round_up.
Qed.

Lemma previousPageCount_max (rendered : Z) :
  previousPageCount rendered = Z.max 0 (rendered - 5).
Proof.
  unfold previousPageCount, _extraPages.
  destruct (Z.gtb_spec rendered 5); lia.
Qed.

Lemma sub_add_assoc (a b c : num) : (a - (b + c) = a - b - c)%num.
Proof.
  destruct a, b, c; simpl; try reflexivity; f_equal; lia.
Qed.

Lemma mul_two_comm (a : num) : (a * Fin 2 = Fin 2 * a)%num.
Proof.
  destruct a; simpl; try reflexivity; f_equal; lia.
Qed.

(** On valid geometry the estimate is an integer with a closed form. *)
Lemma pages_valid (o : PaginationPlusOptions) (H r : Z) :
  valid_geometry o = true ->
  exists ph pg hh fh bs,
    pageHeight o = Fin ph /\ pageGap o = Fin pg /\ pageHeaderHeight o = Fin hh /\
    pageFooterHeight o = Fin fh /\ pageGapBorderSize o = Fin bs /\
    (0 <= pg /\ 0 <= hh /\ 0 <= fh /\ 0 <= bs /\ 0 < ph - (hh + fh))%Z /\
    pages o H r =
      Fin (Z.max 0 (Zceil_div (H - Z.max 0 (r - 5) * (pg + hh + fh + bs * 2))
                              (ph - (hh + fh)) - 1)).
Proof.
  unfold valid_geometry, pages. rewrite previousPageCount_max.
  destruct (pageHeight o) as [ph| | |], (pageGap o) as [pg| | |],
    (pageGapBorderSize o) as [bs| | |], (pageHeaderHeight o) as [hh| | |],
    (pageFooterHeight o) as [fh| | |]; simpl; try (rewrite ?andb_false_r; discriminate).
  intros Hv. repeat (apply andb_prop in Hv; destruct Hv as [Hv ?]).
  exists ph, pg, hh, fh, bs. repeat (split; [reflexivity|]).
  assert (Hband : (0 < ph - (hh + fh))%Z) by lia.
  split; [lia|].
  replace (ph + - (hh + fh))%Z with (ph - (hh + fh))%Z by lia.
  destruct (Z.eqb_spec (ph - (hh + fh)) 0); [lia|].
  set (c := Zceil_div _ _).
  replace (H + - (Z.max 0 (r - 5) * (pg + hh + fh + bs * 2)))%Z
    with (H - Z.max 0 (r - 5) * (pg + hh + fh + bs * 2))%Z in c by lia.
  unfold gtb; simpl.
  destruct (Z.ltb_spec 0 c); f_equal; lia.
Qed.

End Arithmetic.

(** C1. Page count estimation: for every geometry configuration, sampled
    content height and number of previously rendered breaks, the count
    computed by the widget callback is the specification's estimate: the
    overhead [max(0, previousPageCount - 5) * (pageGap + pageHeaderHeight +
    pageFooterHeight + 2 * pageGapBorderSize)] is subtracted from the
    sampled height, the difference is divided by the content band
    [pageHeight - pageHeaderHeight - pageFooterHeight] rounding up, and the
    result is that ceiling minus one when it is positive, zero otherwise. *)
Theorem pages_is_spec_estimate (o : PaginationPlusOptions) (sampled rendered : Z) :
  pages o sampled rendered = spec_estimate o sampled rendered.
Proof.
  unfold pages, spec_estimate.
  rewrite previousPageCount_max, <- ceil_div_rounding_up, sub_add_assoc, mul_two_comm.
  replace (max0 (Fin rendered - Fin 5)%num) with (Fin (Z.max 0 (rendered - 5))).
  - reflexivity.
  - simpl; f_equal; try lia.
Qed.

(** C5. Monotonicity: on a valid geometry and for a fixed number of
    previously rendered breaks, the estimated page count is an integer that
    does not decrease when the sampled content height grows, for heights
    [0 <= H1 <= H2]. *)
Theorem pages_monotone (o : PaginationPlusOptions) (rendered H1 H2 : Z) :
  valid_geometry o = true ->
  (0 <= H1)%Z -> (H1 <= H2)%Z ->
  JsNum.le (pages o H1 rendered) (pages o H2 rendered).
Proof.
  intros Hv H0 Hle.
  destruct (pages_valid o H1 rendered Hv)
    as (ph & pg & hh & fh & bs & Eph & Epg & Ehh & Efh & Ebs & Hpos & E1).
  destruct (pages_valid o H2 rendered Hv)
    as (ph' & pg' & hh' & fh' & bs' & Eph' & Epg' & Ehh' & Efh' & Ebs' & _ & E2).
  rewrite Eph in Eph'. rewrite Epg in Epg'. rewrite Ehh in Ehh'.
  rewrite Efh in Efh'. rewrite Ebs in Ebs'.
  injection Eph' as <-. injection Epg' as <-. injection Ehh' as <-.
  injection Efh' as <-. injection Ebs' as <-.
  rewrite E1, E2. simpl.
  apply Z.max_le_compat_l, Z.sub_le_mono_r, Zceil_div_mono; lia.
Qed.

Lemma pages_monotone_witness :
  JsNum.le (pages addOptions 700 0) (pages addOptions 10000 0).
Proof.
  apply (pages_monotone addOptions 0 700 10000); [reflexivity | lia | lia].
Defined.

Section Synthesis.

Variable mk : Z -> PageBreak.

(** With a finite bound and fuel for every iteration the loop appends
    one break per index from [i] up to the bound. *)
Lemma appendBreaks_finite (fuel : nat) :
  forall (i b : Z) (fragment : list PageBreak),
    (Z.to_nat (b - i) < fuel)%nat ->
    appendBreaks fuel i (Fin b) mk fragment
    = Some (fragment ++ map mk (seqZ i (b - i))).
Proof.
  induction fuel as [|fuel IH]; intros i b fragment Hfuel; [lia|].
  simpl. destruct (Z.ltb_spec i b) as [Hlt | Hge].
  - rewrite IH by lia.
    rewrite (seqZ_cons i (b - i)) by lia.
    replace (Z.succ i) with (i + 1)%Z by lia.
    replace (Z.pred (b - i)) with (b - (i + 1))%Z by lia.
    simpl. now rewrite <- app_assoc.
  - replace (seqZ i (b - i)) with (@nil Z); [now rewrite app_nil_r|].
    symmetry. apply seqZ_nil. lia.
Qed.

(** With the bound [Infinity] the loop does not end. *)
Lemma appendBreaks_infinite (fuel : nat) :
  forall (i : Z) (fragment : list PageBreak),
    appendBreaks fuel i PInf mk fragment = None.
Proof.
  induction fuel as [|fuel IH]; intros i fragment; [reflexivity|].
  simpl. apply IH.
Qed.

Lemma appendBreaks_count (n : Z) :
  (0 <= n)%Z ->
  exists fragment : list PageBreak,
    length fragment = Z.to_nat (n + 5) /\
    (forall i : nat, (i < Z.to_nat (n + 5))%nat -> fragment !! i = Some (mk (Z.of_nat i))) /\
    forall fuel : nat, (Z.to_nat (n + 5) < fuel)%nat ->
      appendBreaks fuel 0 (Fin n + Fin _extraPages)%num mk [] = Some fragment.
Proof.
  intros Hn. exists (map mk (seqZ 0 (n + 5))). split; [|split].
  - now rewrite length_map, length_seqZ.
  - intros i Hi. rewrite list_lookup_fmap, lookup_seqZ_lt by lia.
    simpl. do 2 f_equal.
  - intros fuel Hfuel. simpl. unfold _extraPages.
    rewrite appendBreaks_finite by (rewrite Z.sub_0_r; exact Hfuel).
    now rewrite Z.sub_0_r.
Qed.

End Synthesis.

(** The estimate is never negative: it is a non-negative integer, or
    [Infinity] (a degenerate content band under positive content). *)
Lemma pages_range (o : PaginationPlusOptions) (sampled rendered : Z) :
  pages o sampled rendered = PInf \/
  exists n : Z, (0 <= n)%Z /\ pages o sampled rendered = Fin n.
Proof.
  unfold pages. destruct (ceil_div _ _) as [c| | |]; unfold gtb; simpl.
  - right. destruct (Z.ltb_spec 0 c).
    + exists (c + -1)%Z. split; [lia | reflexivity].
    + exists 0%Z. split; [lia | reflexivity].
  - now left.
  - right. exists 0%Z. split; [lia | reflexivity].
  - right. exists 0%Z. split; [lia | reflexivity].
Qed.

(** C2. Descriptor count: for every non-negative page count [n], every
    geometry and every breaker width, the synthesis loop of either revision
    completes and emits exactly [n + 5] page breaks, the one at index [i]
    being the first-page break for [i = 0] and the ordinary break for page
    index [i] otherwise. *)
Theorem fragment_count (o : PaginationPlusOptions) (breakerWidth n : Z) :
  (0 <= n)%Z ->
  emits (fun fuel => BaseSynth.fragment fuel o breakerWidth (Fin n))
        (fun i => BaseSynth.pageBreakDefinition o breakerWidth (i =? 0)%Z i) n /\
  emits (fun fuel => ResponsiveSynth.fragment fuel o (Fin n))
        (fun i => ResponsiveSynth.createPageBreak (i =? 0)%Z i o) n.
Proof.
  intros Hn. split.
  - destruct (appendBreaks_count
                (fun i => if (i =? 0)%Z
                          then BaseSynth.pageBreakDefinition o breakerWidth true i
                          else BaseSynth.pageBreakDefinition o breakerWidth false i) n Hn)
      as (fragment & Hlen & Hat & Hloop).
    exists fragment. split; [exact Hlen|]. split; [|exact Hloop].
    intros i Hi. rewrite (Hat i Hi). now destruct (Z.of_nat i =? 0)%Z.
  - exact (appendBreaks_count (fun i => ResponsiveSynth.createPageBreak (i =? 0)%Z i o) n Hn).
Qed.

Lemma fragment_count_witness :
  emits (fun fuel => BaseSynth.fragment fuel addOptions 600 (Fin 2))
        (fun i => BaseSynth.pageBreakDefinition addOptions 600 (i =? 0)%Z i) 2 /\
  emits (fun fuel => ResponsiveSynth.fragment fuel addOptions (Fin 2))
        (fun i => ResponsiveSynth.createPageBreak (i =? 0)%Z i addOptions) 2.
Proof.
  apply (fragment_count addOptions 600 2). lia.
Defined.

Example pageWidget_sample :
  totalHeight (dom_children sample_view) = 2100%Z /\
  option_map (@length PageBreak) (BaseSynth.pageWidget 20 addOptions sample_view) = Some 7%nat /\
  option_map (map footer_text) (ResponsiveSynth.pageWidget 20 addOptions sample_view)
  = Some [""; ""; ""; ""; ""; ""; ""] /\
  BaseSynth.pageWidget 7 addOptions sample_view = None.
Proof. vm_compute. repeat split. Qed.

(** A degenerate band under content: the estimate is [Infinity] and the
    loop never completes. *)
Example fragment_infinite (fuel : nat) (o : PaginationPlusOptions) :
  ResponsiveSynth.fragment fuel o PInf = None.
Proof. apply appendBreaks_infinite. Qed.




(** The guard [footerText.length > 0] of the base revision changes
    nothing: both revisions resolve every source alike. *)
Lemma resolveFooterText_agree (ft : FooterText) (pageIndex : Z) :
  Base.resolveFooterText ft pageIndex = Responsive.resolveFooterText ft pageIndex.
Proof.
  destruct ft as [s | l | f]; try reflexivity.
  simpl. destruct l as [|x l]; [|reflexivity].
  simpl. unfold js_index. simpl. now destruct (pageIndex <? 0)%Z.
Qed.


Example updatePageMargins_top_20 :
  pageHeaderHeight (options (snd (ResponsiveCommands.updatePageMargins
    {| left := JUndefined; right := JUndefined; top := JNumber (Fin 20); bottom := JUndefined |}
    new_extension))) = Fin 20.
Proof. reflexivity. Qed.

(** A [NaN] margin has type number and is not below zero: it passes the
    checks and is stored. *)
Example updatePageMargins_NaN :
  let r := ResponsiveCommands.updatePageMargins
             {| left := JNumber NaN; right := JUndefined; top := JUndefined; bottom := JUndefined |}
             new_extension in
  fst r = true /\ pageMarginLeft (options (snd r)) = NaN.
Proof. split; reflexivity. Qed.

Section MarginLemmas.

Lemma rejected_iff (field : jsval) :
  rejected field = true <-> below_zero_or_other_type field.
Proof.
  destruct field as [| |b|n|s]; simpl; try tauto; split; auto; discriminate.
Qed.

Lemma validate_refuses (margins : MarginUpdate) :
  some_field_refused margins -> exists message, validate margins = Some message.
Proof.
  unfold some_field_refused, validate. rewrite <- !rejected_iff.
  intros Hbad.
  destruct (rejected (left margins)); [eauto|].
  destruct (rejected (right margins)); [eauto|].
  destruct (rejected (top margins)); [eauto|].
  destruct (rejected (bottom margins)); [eauto|].
  destruct Hbad as [? | [? | [? | ?]]]; discriminate.
Qed.

(** Each accepted field is absent or a number. *)
Lemma validate_accepts (margins : MarginUpdate) :
  validate margins = None ->
  rejected (left margins) = false /\ rejected (right margins) = false /\
  rejected (top margins) = false /\ rejected (bottom margins) = false.
Proof.
  unfold validate.
  destruct (rejected (left margins)); [discriminate|].
  destruct (rejected (right margins)); [discriminate|].
  destruct (rejected (top margins)); [discriminate|].
  destruct (rejected (bottom margins)); [discriminate|].
  auto.
Qed.

Lemma assign_provided (field : jsval) set (get : PaginationPlusOptions -> num) o :
  rejected field = false ->
  (forall v o, get (set v o) = v) ->
  provided field (get o) (get (assign field set o)).
Proof.
  intros Hok Hget. split.
  - intros ->. reflexivity.
  - intros n ->. simpl. apply Hget.
Qed.

Lemma updateOptions_frame (margins : MarginUpdate) (o : PaginationPlusOptions) :
  validate margins = None -> margins_frame margins o (updateOptions margins o).
Proof.
  intros Hv. destruct (validate_accepts margins Hv) as (Hl & Hr & Ht & Hb).
  unfold margins_frame, updateOptions, provided.
  destruct (left margins) as [| |?|l|?]; try discriminate Hl;
  destruct (right margins) as [| |?|r|?]; try discriminate Hr;
  destruct (top margins) as [| |?|t|?]; try discriminate Ht;
  destruct (bottom margins) as [| |?|b|?]; try discriminate Hb;
  simpl; repeat split; intros; congruence.
Qed.

(** The parts of the geometry no margin update touches. *)
Lemma updateOptions_keeps (margins : MarginUpdate) (o : PaginationPlusOptions) :
  pageHeight (updateOptions margins o) = pageHeight o /\
  pageGap (updateOptions margins o) = pageGap o /\
  pageGapBorderSize (updateOptions margins o) = pageGapBorderSize o.
Proof.
  unfold updateOptions.
  destruct (left margins), (right margins), (top margins), (bottom margins);
    simpl; auto.
Qed.

End MarginLemmas.

(** Failure atomicity of [updatePageMargins] where the checks do refuse:
    whenever some provided field ([left], [right], [top] or [bottom]) is not
    of type number or is a number below zero, the command of either
    revision returns [false] and leaves every option, the style rules and
    the dispatch queue as they were; it only reports a diagnostic. *)
Theorem updatePageMargins_failure_atomic (margins : MarginUpdate) (ext : Extension) :
  some_field_refused margins ->
  failed_unchanged ext (BaseCommands.updatePageMargins (Some margins) ext) /\
  failed_unchanged ext (ResponsiveCommands.updatePageMargins margins ext).
Proof.
  intros Hbad. destruct (validate_refuses margins Hbad) as [message Hm].
  unfold BaseCommands.updatePageMargins, ResponsiveCommands.updatePageMargins.
  rewrite Hm. unfold failed_unchanged, reportError. simpl.
  split; repeat split; eauto.
Qed.

Lemma updatePageMargins_failure_atomic_witness :
  failed_unchanged new_extension
    (BaseCommands.updatePageMargins (Some left_minus_one) new_extension) /\
  failed_unchanged new_extension
    (ResponsiveCommands.updatePageMargins left_minus_one new_extension).
Proof.
  apply (updatePageMargins_failure_atomic left_minus_one new_extension).
  left. reflexivity.
Defined.

(** C6. [updatePageMargins] is to fail, changing nothing, whenever a
    provided field is negative or not a number, and its diagnostics ask for
    "a non-negative number"; the checks [typeof left !== "number" || left < 0]
    miss [NaN].  On [{ left: NaN }] the field is provided and is not a
    non-negative number, yet the command of either revision, on any
    extension, returns [true], stores [NaN] in [pageMarginLeft], derives the
    style rules from it and dispatches the pagination transaction. *)
Theorem updatePageMargins_accepts_NaN (ext : Extension) :
  defined (left left_NaN) = true /\
  is_non_negative_number (left left_NaN) = false /\
  validate left_NaN = None /\
  fst (ResponsiveCommands.updatePageMargins left_NaN ext) = true /\
  pageMarginLeft (options (snd (ResponsiveCommands.updatePageMargins left_NaN ext))) = NaN /\
  fst (BaseCommands.updatePageMargins (Some left_NaN) ext) = true /\
  pageMarginLeft (options (snd (BaseCommands.updatePageMargins (Some left_NaN) ext))) = NaN /\
  styleElement (snd (ResponsiveCommands.updatePageMargins left_NaN ext))
  = updateStyles (set_pageMarginLeft NaN (options ext)) (styleElement ext) /\
  dispatched (snd (ResponsiveCommands.updatePageMargins left_NaN ext))
  = dispatched ext ++ [setMeta state_tr pagination_meta_key (JBool true)].
Proof.
  repeat split.
Qed.

(** C10. Frame of [updatePageMargins]: when the command of either revision
    succeeds, [pageHeight], [pageGap], [pageGapBorderSize],
    [pageBreakBackground] and [footerText] keep their values; [left],
    [right], [top] and [bottom] set [pageMarginLeft], [pageMarginRight],
    [pageHeaderHeight] and [pageFooterHeight] when provided, and each of
    these four keeps its previous value when its field is not provided. *)
Theorem updatePageMargins_frame (margins : MarginUpdate) (ext : Extension) :
  (forall ext', BaseCommands.updatePageMargins (Some margins) ext = (true, ext') ->
     margins_frame margins (options ext) (options ext')) /\
  (forall ext', ResponsiveCommands.updatePageMargins margins ext = (true, ext') ->
     margins_frame margins (options ext) (options ext')).
Proof.
  unfold BaseCommands.updatePageMargins, ResponsiveCommands.updatePageMargins.
  destruct (validate margins) as [message|] eqn:Hv.
  - split; intros ext' H; discriminate H.
  - split; intros ext' H; injection H as <-; simpl; now apply updateOptions_frame.
Qed.

Lemma updatePageMargins_frame_witness :
  margins_frame top_20_right_30 addOptions
    (options (snd (BaseCommands.updatePageMargins (Some top_20_right_30) new_extension))) /\
  margins_frame top_20_right_30 addOptions
    (options (snd (ResponsiveCommands.updatePageMargins top_20_right_30 new_extension))).
Proof.
  destruct (updatePageMargins_frame top_20_right_30 new_extension) as [Hb Hr].
  split; [apply Hb | apply Hr]; reflexivity.
Defined.

Example pageTops_drops_zero :
  pageTops [0; 900; 1800]%Z = [Fin 900; Fin 1800; PInf].
Proof. reflexivity. Qed.

Example bucket_examples :
  bucket (pageTops [0; 900; 1800]%Z) 0 (Fin 1850) = Some 2%Z /\
  bucket (pageTops [0; 900; 1800]%Z) 0 (Fin 950) = Some 1%Z /\
  bucket (pageTops [0; 900; 1800]%Z) 0 (Fin 100) = None /\
  bucket [Fin 0; Fin 900; Fin 1800; PInf] 0 (Fin 1850) = Some 3%Z.
Proof. repeat split. Qed.

Section Boundaries.

(** No zero offset takes part in the boundary sequence. *)
Lemma pageTops_nonzero (offsetTops : list Z) : Fin 0 ∉ pageTops offsetTops.
Proof.
  unfold pageTops. rewrite elem_of_app, list_elem_of_fmap.
  intros [(z & Hz & Hin) | Hinf].
  - injection Hz as <-. apply list_elem_of_filter in Hin. now destruct Hin.
  - apply list_elem_of_singleton in Hinf. discriminate.
Qed.

Lemma math_max_spec (values : list Z) :
  match values with
  | [] => math_max values = NInf
  | _ => exists m, math_max values = Fin m /\ m ∈ values /\
                   forall v, v ∈ values -> (v <= m)%Z
  end.
Proof.
  induction values as [|v [|w values] IH].
  - reflexivity.
  - exists v. simpl. repeat split; [apply list_elem_of_here|].
    intros u Hu. apply list_elem_of_singleton in Hu. lia.
  - destruct IH as (m & Hm & Hin & Hmax).
    change (math_max (v :: w :: values))
      with (if (math_max (w :: values) <? Fin v)%num then Fin v else math_max (w :: values)).
    rewrite Hm. simpl. destruct (Z.ltb_spec m v) as [Hlt | Hge].
    + exists v. repeat split; [apply list_elem_of_here|].
      intros u Hu. apply elem_of_cons in Hu as [-> | Hu]; [lia|].
      specialize (Hmax u Hu). lia.
    + exists m. repeat split; [now apply list_elem_of_further|].
      intros u Hu. apply elem_of_cons in Hu as [-> | Hu]; [lia|].
      now apply Hmax.
Qed.

Lemma maxPage_highest (populated : gset Z) :
  exists m, maxPage populated = Fin m /\ highest_bucket populated m.
Proof.
  unfold maxPage, highest_bucket.
  destruct (Z.ltb_spec 0 (Z.of_nat (size populated))) as [Hpos | Hzero].
  - assert (Hne : populated <> ∅).
    { intros ->. rewrite size_empty in Hpos. lia. }
    pose proof (math_max_spec (elements populated)) as Hmax.
    destruct (elements populated) as [|v values] eqn:He.
    + apply elements_empty_inv in He. apply leibniz_equiv in He. contradiction.
    + destruct Hmax as (m & Hm & Hin & Hle). exists m. split; [exact Hm|].
      split; [contradiction|]. intros _. split.
      * apply elem_of_elements. now rewrite He.
      * intros p Hp. apply Hle. rewrite <- He. now apply elem_of_elements.
  - exists 0%Z. split; [reflexivity|]. split; [reflexivity|].
    intros Hne. exfalso. apply Hne. apply leibniz_equiv, size_empty_inv. lia.
Qed.

Lemma minHeight_fits (m : Z) (o : PaginationPlusOptions) :
  minHeight (Fin m) (pageHeight o) (pageGap o) (pageGapBorderSize o) = fits_pages m o.
Proof.
  unfold minHeight, fits_pages.
  replace (Fin m + Fin 2 - Fin 1)%num with (Fin (m + 1)) by (simpl; f_equal; lia).
  reflexivity.
Qed.

(** Gap, border and page height survive any run of margin updates, so
    the constants captured at creation stay equal to the live options. *)
Lemma after_updates_keeps (updates : list (option MarginUpdate)) :
  forall ext : Extension,
    pageHeight (options (after_updates updates ext)) = pageHeight (options ext) /\
    pageGap (options (after_updates updates ext)) = pageGap (options ext) /\
    pageGapBorderSize (options (after_updates updates ext)) = pageGapBorderSize (options ext).
Proof.
  induction updates as [|margins updates IH]; intros ext; [auto|].
  simpl. destruct (IH (snd (BaseCommands.updatePageMargins margins ext))) as (-> & -> & ->).
  unfold BaseCommands.updatePageMargins.
  destruct margins as [margins|]; [|auto].
  destruct (validate margins); [auto|]. simpl. apply updateOptions_keeps.
Qed.

End Boundaries.

(** C4 does not hold as worded: from the page offsets 0, 900, 1800 the boundary
    sequence is [900, 1800, Infinity], and the element at offset 1850 falls
    into page 2, not page 3. *)
Lemma classification_1850_is_not_page_3 :
  bucket (pageTops [0; 900; 1800]%Z) 0 (Fin 1850) <> Some 3%Z.
Proof. discriminate. Qed.

(** No page offsets make [0, 900, 1800, Infinity] the boundary sequence:
    the value 3 for the element at 1850 belongs to a sequence the refresh
    never builds. *)
Lemma pageTops_never_unfiltered (offsetTops : list Z) :
  pageTops offsetTops <> [Fin 0; Fin 900; Fin 1800; PInf].
Proof.
  intros Heq. apply (pageTops_nonzero offsetTops).
  rewrite Heq. apply list_elem_of_here.
Qed.

(** C4, amended. With the rendered page offsets 0, 900 and 1800 the zero
    offset is dropped, the boundary sequence is [900, 1800, Infinity], and a
    content element whose top offset is 1850 is classified into page index
    2: the bucket from 1800 on is at index 1 of that sequence, and the page
    index is one more.  In the whole refresh of such a tree the highest
    populated page is 2. *)
Theorem classification_1850_is_page_2 :
  pageTops [0; 900; 1800]%Z = [Fin 900; Fin 1800; PInf] /\
  bucket (pageTops [0; 900; 1800]%Z) 0 (Fin 1850) = Some 2%Z /\
  maxPage (pagesWithContent (pageTops [0; 900; 1800]%Z) (root_children boundary_root)) = Fin 2.
Proof.
  split; [reflexivity|]. split; [reflexivity|]. vm_compute. reflexivity.
Qed.

(** C8. Container minimum height: when the root holds the [#pages]
    widget, the refresh of either revision sets the minimum height to
    [(maxPage + 2) * pageHeight + (maxPage + 1) * (pageGap + 2 *
    pageGapBorderSize)], where [maxPage] is the highest populated page
    bucket (zero when none is populated).  In the base revision gap and
    border are the values captured at creation, which every run of margin
    updates leaves equal to the live options. *)
Theorem refreshPage_minHeight (root : Root) (target : Element) :
  findPages (root_children root) = Some target ->
  exists m : Z,
    highest_bucket
      (pagesWithContent (pageTops (map rb_pageTop (el_breaks target))) (root_children root)) m /\
    (forall o : PaginationPlusOptions,
        root_minHeight (ResponsivePage.refreshPage o root) = Some (fits_pages m o)) /\
    (forall (created : Extension) (updates : list (option MarginUpdate)),
        let o := options (after_updates updates created) in
        root_minHeight (BasePage.refreshPage (BasePage.onCreate (options created)) o root)
        = Some (fits_pages m o)).
Proof.
  intros Hfind.
  destruct (maxPage_highest
              (pagesWithContent (pageTops (map rb_pageTop (el_breaks target)))
                                (root_children root))) as (m & Hm & Hhigh).
  exists m. split; [exact Hhigh|]. split.
  - intros o. unfold ResponsivePage.refreshPage, refreshPageWith.
    rewrite Hfind. simpl. rewrite Hm. f_equal. apply minHeight_fits.
  - intros created updates o.
    unfold BasePage.refreshPage, refreshPageWith. rewrite Hfind. simpl. rewrite Hm.
    destruct (after_updates_keeps updates created) as (_ & Hgap & Hborder).
    fold o in Hgap, Hborder. rewrite <- Hgap, <- Hborder. f_equal. apply minHeight_fits.
Qed.

Lemma refreshPage_minHeight_witness :
  exists m : Z,
    highest_bucket
      (pagesWithContent (pageTops [0; 900; 1800]%Z) (root_children boundary_root)) m /\
    (forall o : PaginationPlusOptions,
        root_minHeight (ResponsivePage.refreshPage o boundary_root) = Some (fits_pages m o)) /\
    (forall (created : Extension) (updates : list (option MarginUpdate)),
        let o := options (after_updates updates created) in
        root_minHeight (BasePage.refreshPage (BasePage.onCreate (options created)) o
                                             boundary_root)
        = Some (fits_pages m o)).
Proof.
  exact (refreshPage_minHeight boundary_root _ eq_refl).
Defined.

Example refreshPage_default :
  root_minHeight (ResponsivePage.refreshPage addOptions boundary_root) = Some (Fin 3356) /\
  fits_pages 2 addOptions = Fin 3356 /\
  option_map (fun target => map rb_lastPage (el_breaks target))
    (findPages (root_children (ResponsivePage.refreshPage addOptions boundary_root)))
  = Some [false; false; false].
Proof. vm_compute. repeat split. Qed.

Lemma getMeta_absent (tr : Transaction) (key : string) :
  meta tr !! key = None -> truthy (getMeta tr key) = false.
Proof. intros Habsent. unfold getMeta. now rewrite Habsent. Qed.

(** A tagged transaction does resynthesize, into a new object. *)
Example apply_resize_tagged :
  ResponsivePlugin.apply (setMeta state_tr resize_meta_key (JBool true))
    {| ds_object := 0; ds_widgets := [] |} {| doc_content_size := 4 |}
    {| doc_content_size := 4 |} {| next_object := 1; syntheses := 1 |}
  = ({| ds_object := 1;
        ds_widgets := fst (createDecoration {| doc_content_size := 4 |}
                             {| next_object := 1; syntheses := 1 |}) |},
     {| next_object := 2; syntheses := 2 |}).
Proof. vm_compute. reflexivity. Qed.

(** C7. No-op transactions reuse the layout: for a transaction that does
    not change the document and carries neither the pagination key nor the
    resize key, [apply] of either revision returns the previous decoration
    set itself and leaves the store as it was: no object is created and
    [createDecoration] does not run. *)
Theorem apply_unrelated (tr : Transaction) (oldDeco : DecorationSet)
    (oldState newState : EditorState) (s : Store) :
  docChanged tr = false ->
  meta tr !! pagination_meta_key = None ->
  meta tr !! resize_meta_key = None ->
  BasePlugin.apply tr oldDeco oldState newState s = (oldDeco, s) /\
  ResponsivePlugin.apply tr oldDeco oldState newState s = (oldDeco, s).
Proof.
  intros Hdoc Hpag Hres.
  unfold BasePlugin.apply, ResponsivePlugin.apply.
  rewrite Hdoc, (getMeta_absent tr _ Hpag), (getMeta_absent tr _ Hres).
  split; reflexivity.
Qed.

Lemma apply_unrelated_witness :
  BasePlugin.apply selection_only old_deco some_state some_state some_store
  = (old_deco, some_store) /\
  ResponsivePlugin.apply selection_only old_deco some_state some_state some_store
  = (old_deco, some_store).
Proof.
  apply (apply_unrelated selection_only); reflexivity.
Defined.

Example refreshPagination_twice_counts :
  option_map (fun ed => length (layoutOf ed)) (refreshPagination even_layout 40 long_document)
  = Some 17%nat /\
  option_map (fun ed => length (layoutOf ed))
    (refreshPagination even_layout 40 long_document ≫= refreshPagination even_layout 40)
  = Some 16%nat.
Proof. vm_compute. split; reflexivity. Qed.

Section Refresh.

Variable pageOffsetTop : list PageBreak -> nat -> Z.

Lemma pageWidget_finite (o : PaginationPlusOptions) (view : View) (n : Z) (fuel : nat) :
  pages o (totalHeight (dom_children view))
        (renderedCount (paginationElement (dom_children view))) = Fin n ->
  (Z.to_nat (n + 5) < fuel)%nat ->
  ResponsiveSynth.pageWidget fuel o view = Some (synthesized o n).
Proof.
  intros Hn Hfuel. unfold ResponsiveSynth.pageWidget, ResponsiveSynth.fragment.
  rewrite Hn. simpl.
  unfold _extraPages. rewrite appendBreaks_finite by (rewrite Z.sub_0_r; exact Hfuel).
  now rewrite Z.sub_0_r.
Qed.

(** A refresh is exactly one redraw of the view with the current options. *)
Lemma refreshPagination_redraw (fuel : nat) (ed : Editor) :
  refreshPagination pageOffsetTop fuel ed =
  match redraw pageOffsetTop fuel (options (ed_ext ed)) (ed_view ed) with
  | Some view =>
      Some {| ed_ext := snd (ResponsiveCommands.refreshPagination (ed_ext ed));
              ed_state := ed_state ed;
              ed_deco := fst (resynthesize (ed_state ed) (ed_store ed));
              ed_store := snd (resynthesize (ed_state ed) (ed_store ed));
              ed_view := view |}
  | None => None
  end.
Proof.
  unfold refreshPagination, run. simpl. rewrite drop_app_length. simpl.
  unfold dispatch. simpl.
  replace (ResponsivePlugin.apply (setMeta state_tr resize_meta_key (JBool true))
             (ed_deco ed) (ed_state ed) (ed_state ed) (ed_store ed))
    with (resynthesize (ed_state ed) (ed_store ed)) by reflexivity.
  assert (Hne : forall n : nat, (S n =? n)%nat = false)
    by (intros n; apply Nat.eqb_neq; lia).
  unfold resynthesize, createDecoration, DecorationSet_create.
  cbn [syntheses next_object fst snd ed_store ed_state ed_deco ed_view ed_ext options].
  rewrite Hne.
  destruct (redraw _ _ _ _); reflexivity.
Qed.

Lemma paginationElement_mount (breaks : list PageBreak) (children : list Element) :
  paginationElement (mount (pagesElement pageOffsetTop breaks) children)
  = Some (pagesElement pageOffsetTop breaks).
Proof.
  unfold mount. destruct children as [|old rest]; [reflexivity|].
  destruct (el_rmPagination old); reflexivity.
Qed.

Lemma pagesElement_breaks (breaks : list PageBreak) :
  map rb_break (el_breaks (pagesElement pageOffsetTop breaks)) = breaks.
Proof.
  apply list_eq. intros i. simpl.
  rewrite list_lookup_fmap, list_lookup_imap.
  now destruct (breaks !! i).
Qed.

(** Replacing the widget at the head changes neither the sampled height
    nor the blocks examined. *)
Lemma totalHeight_mount (widget old : Element) (rest : list Element) :
  el_rmPagination old = true ->
  totalHeight (mount widget (old :: rest)) = totalHeight (old :: rest).
Proof.
  intros Hold. unfold mount. rewrite Hold. unfold totalHeight, content_range.
  simpl length. destruct rest; reflexivity.
Qed.

Lemma renderedCount_layoutOf (ed : Editor) :
  renderedCount (paginationElement (dom_children (ed_view ed)))
  = Z.of_nat (length (layoutOf ed)).
Proof.
  unfold layoutOf. destruct (paginationElement _); simpl; [|reflexivity].
  now rewrite length_map.
Qed.

Lemma synthesized_length (o : PaginationPlusOptions) (n : Z) :
  length (synthesized o n) = Z.to_nat (n + 5).
Proof. unfold synthesized. now rewrite length_map, length_seqZ. Qed.

(** Two synthesized layouts agree wherever both have a break. *)
Lemma synthesized_agree (o : PaginationPlusOptions) (n1 n2 : Z) (i : nat) (b1 b2 : PageBreak) :
  synthesized o n1 !! i = Some b1 -> synthesized o n2 !! i = Some b2 -> b1 = b2.
Proof.
  unfold synthesized. rewrite !list_lookup_fmap. intros H1 H2.
  destruct (seqZ 0 (n1 + 5) !! i) as [z1|] eqn:E1; [|discriminate].
  destruct (seqZ 0 (n2 + 5) !! i) as [z2|] eqn:E2; [|discriminate].
  apply lookup_seqZ in E1 as [-> _]. apply lookup_seqZ in E2 as [-> _].
  simpl in H1, H2. congruence.
Qed.

End Refresh.

(** C9 does not hold as worded: with default options, 10000 pixels of content and
    the five breaks of the initial draw on screen, the first refresh
    renders 17 breaks and the second, with the content unchanged, 16. *)
Lemma refreshPagination_twice_differs :
  refreshPagination even_layout 40 long_document = Some after_first_refresh /\
  refreshPagination even_layout 40 after_first_refresh = Some after_second_refresh /\
  length (layoutOf after_first_refresh) = 17%nat /\
  length (layoutOf after_second_refresh) = 16%nat /\
  length (footerTexts after_first_refresh) <> length (footerTexts after_second_refresh).
Proof.
  split; [vm_compute; reflexivity|]. split; [vm_compute; reflexivity|].
  split; [vm_compute; reflexivity|]. split; [vm_compute; reflexivity|].
  vm_compute. discriminate.
Qed.

(** C9, amended. On a valid geometry two refreshes in succession, with no
    content change in between, both complete (given enough fuel) and yield
    layouts whose breaks, footer texts included, are identical at every page
    index that both layouts contain.  When the tree starts with the widget
    and the first refresh reproduces the descriptor count that was on
    screen before it, the second refresh reproduces the first layout: same
    descriptor count, same footer texts. *)
Theorem refreshPagination_twice (pageOffsetTop : list PageBreak -> nat -> Z) (ed : Editor) :
  valid_geometry (options (ed_ext ed)) = true ->
  exists N : nat, forall fuel : nat, (N <= fuel)%nat ->
    exists ed1 ed2 : Editor,
      refreshPagination pageOffsetTop fuel ed = Some ed1 /\
      refreshPagination pageOffsetTop fuel ed1 = Some ed2 /\
      (forall (i : nat) (b1 b2 : PageBreak),
          layoutOf ed1 !! i = Some b1 -> layoutOf ed2 !! i = Some b2 -> b1 = b2) /\
      (forall (i : nat) (t1 t2 : string),
          footerTexts ed1 !! i = Some t1 -> footerTexts ed2 !! i = Some t2 -> t1 = t2) /\
      (widget_first ed -> length (layoutOf ed1) = length (layoutOf ed) ->
       layoutOf ed2 = layoutOf ed1 /\ footerTexts ed2 = footerTexts ed1).
Proof.
  intros Hvalid. set (o := options (ed_ext ed)) in *.
  set (children := dom_children (ed_view ed)).
  destruct (pages_valid o (totalHeight children)
              (renderedCount (paginationElement children)) Hvalid)
    as (? & ? & ? & ? & ? & _ & _ & _ & _ & _ & _ & Hn1).
  match type of Hn1 with _ = Fin ?n => set (n1 := n) in Hn1 end.
  set (children1 := mount (pagesElement pageOffsetTop (synthesized o n1)) children).
  destruct (pages_valid o (totalHeight children1)
              (renderedCount (paginationElement children1)) Hvalid)
    as (? & ? & ? & ? & ? & _ & _ & _ & _ & _ & _ & Hn2).
  match type of Hn2 with _ = Fin ?n => set (n2 := n) in Hn2 end.
  exists (S (Z.to_nat (n1 + 5) + Z.to_nat (n2 + 5))). intros fuel Hfuel.
  assert (Hdraw1 : redraw pageOffsetTop fuel o (ed_view ed)
                   = Some {| dom_children := children1; clientWidth := clientWidth (ed_view ed) |}).
  { unfold redraw. rewrite (pageWidget_finite o (ed_view ed) n1 fuel Hn1) by lia. reflexivity. }
  set (view1 := {| dom_children := children1; clientWidth := clientWidth (ed_view ed) |}) in *.
  set (ed1 := {| ed_ext := snd (ResponsiveCommands.refreshPagination (ed_ext ed));
                 ed_state := ed_state ed;
                 ed_deco := fst (resynthesize (ed_state ed) (ed_store ed));
                 ed_store := snd (resynthesize (ed_state ed) (ed_store ed));
                 ed_view := view1 |}).
  assert (Hdraw2 : redraw pageOffsetTop fuel o view1
                   = Some {| dom_children :=
                               mount (pagesElement pageOffsetTop (synthesized o n2)) children1;
                             clientWidth := clientWidth view1 |}).
  { unfold redraw. rewrite (pageWidget_finite o view1 n2 fuel Hn2) by lia. reflexivity. }
  set (view2 := {| dom_children := mount (pagesElement pageOffsetTop (synthesized o n2)) children1;
                   clientWidth := clientWidth view1 |}) in *.
  set (ed2 := {| ed_ext := snd (ResponsiveCommands.refreshPagination (ed_ext ed1));
                 ed_state := ed_state ed1;
                 ed_deco := fst (resynthesize (ed_state ed1) (ed_store ed1));
                 ed_store := snd (resynthesize (ed_state ed1) (ed_store ed1));
                 ed_view := view2 |}).
  assert (Hlay1 : layoutOf ed1 = synthesized o n1).
  { unfold layoutOf, ed1, view1, children1. cbn [ed_view dom_children].
    rewrite paginationElement_mount. apply pagesElement_breaks. }
  assert (Hlay2 : layoutOf ed2 = synthesized o n2).
  { unfold layoutOf, ed2, view2. cbn [ed_view dom_children].
    rewrite paginationElement_mount. apply pagesElement_breaks. }
  exists ed1, ed2. split; [|split; [|split; [|split]]].
  - rewrite refreshPagination_redraw. fold o. now rewrite Hdraw1.
  - rewrite refreshPagination_redraw.
    change (options (ed_ext ed1)) with o. change (ed_view ed1) with view1.
    now rewrite Hdraw2.
  - rewrite Hlay1, Hlay2. apply synthesized_agree.
  - unfold footerTexts. rewrite Hlay1, Hlay2. intros i t1 t2.
    rewrite !list_lookup_fmap. intros H1 H2.
    destruct (synthesized o n1 !! i) as [b1|] eqn:E1; [|discriminate].
    destruct (synthesized o n2 !! i) as [b2|] eqn:E2; [|discriminate].
    rewrite (synthesized_agree o n1 n2 i b1 b2 E1 E2) in H1. simpl in H1, H2. congruence.
  - intros (widget & rest & Hchildren & Hwidget) Hsame.
    assert (Heq : n2 = n1); [|unfold footerTexts; rewrite Hlay1, Hlay2, Heq; auto].
    assert (Hfin : Fin n2 = Fin n1); [|now injection Hfin].
    rewrite <- Hn1, <- Hn2. f_equal.
    + unfold children1, children. rewrite Hchildren. now apply totalHeight_mount.
    + unfold children1. rewrite paginationElement_mount.
      fold children in Hchildren. unfold children. rewrite renderedCount_layoutOf.
      rewrite <- Hsame, Hlay1. simpl. now rewrite length_imap.
Qed.

(** Once the count is reproduced, further refreshes keep the layout. *)
Example refreshPagination_settled :
  option_map layoutOf (refreshPagination even_layout 40 settled_document)
  = Some (layoutOf settled_document) /\
  length (layoutOf settled_document) = 16%nat.
Proof. vm_compute. split; reflexivity. Qed.

Lemma refreshPagination_twice_witness :
  exists N : nat, forall fuel : nat, (N <= fuel)%nat ->
    exists ed1 ed2 : Editor,
      refreshPagination even_layout fuel settled_document = Some ed1 /\
      refreshPagination even_layout fuel ed1 = Some ed2 /\
      (forall (i : nat) (b1 b2 : PageBreak),
          layoutOf ed1 !! i = Some b1 -> layoutOf ed2 !! i = Some b2 -> b1 = b2) /\
      (forall (i : nat) (t1 t2 : string),
          footerTexts ed1 !! i = Some t1 -> footerTexts ed2 !! i = Some t2 -> t1 = t2) /\
      (widget_first settled_document ->
       length (layoutOf ed1) = length (layoutOf settled_document) ->
       layoutOf ed2 = layoutOf ed1 /\ footerTexts ed2 = footerTexts ed1).
Proof.
  apply (refreshPagination_twice even_layout settled_document). vm_compute. reflexivity.
Defined.


(** ** Accepted margin updates *)

Section AcceptedUpdates.

Lemma rejected_false_iff (field : jsval) : rejected field = false <-> acceptable field.
Proof.
  unfold acceptable, rejected. destruct field as [| |b|n|s]; simpl.
  - split; [now left | reflexivity].
  - split; [discriminate | intros [H | (n & H & _)]; discriminate H].
  - split; [discriminate | intros [H | (n & H & _)]; discriminate H].
  - split.
    + intros H. right. exists n. now split.
    + intros [H | (m & H & Hm)]; [discriminate H|]. injection H as ->. exact Hm.
  - split; [discriminate | intros [H | (n & H & _)]; discriminate H].
Qed.

Lemma validate_none_iff (margins : MarginUpdate) :
  validate margins = None <-> all_acceptable margins.
Proof.
  unfold all_acceptable. rewrite <- !rejected_false_iff. split.
  - apply validate_accepts.
  - intros (Hl & Hr & Ht & Hb). unfold validate. now rewrite Hl, Hr, Ht, Hb.
Qed.

Lemma assign_later (f1 f2 : jsval) set (o : PaginationPlusOptions) :
  acceptable f2 ->
  (forall a b o, set b (set a o) = set b o) ->
  assign f2 set (assign f1 set o) = assign (later f1 f2) set o.
Proof.
  intros [-> | (n & -> & _)] Hset; [reflexivity|].
  simpl. destruct f1; simpl; auto.
Qed.

Lemma updateOptions_merge (m1 m2 : MarginUpdate) (o : PaginationPlusOptions) :
  all_acceptable m2 ->
  updateOptions m2 (updateOptions m1 o) = updateOptions (mergeMargins m1 m2) o.
Proof.
  intros (Hl & Hr & Ht & Hb). unfold updateOptions, mergeMargins. simpl.
  destruct Hl as [-> | (l2 & -> & _)], Hr as [-> | (r2 & -> & _)],
           Ht as [-> | (t2 & -> & _)], Hb as [-> | (b2 & -> & _)];
    destruct (left m1), (right m1), (top m1), (bottom m1); reflexivity.
Qed.

Lemma later_acceptable (f1 f2 : jsval) :
  acceptable f1 -> acceptable f2 -> acceptable (later f1 f2).
Proof.
  intros H1 [-> | (n & -> & Hn)]; [exact H1|]. right. now exists n.
Qed.

End AcceptedUpdates.



(** X2. Two accepted updates in a row act on the options as the single
    update that takes each field from the second where it is provided and
    from the first otherwise; that merged update is accepted too.  In
    particular an accepted update applied twice leaves the options it left
    the first time. *)
Theorem updatePageMargins_compose (m1 m2 : MarginUpdate) (ext : Extension) :
  all_acceptable m1 -> all_acceptable m2 ->
  let once := snd (ResponsiveCommands.updatePageMargins m1 ext) in
  fst (ResponsiveCommands.updatePageMargins (mergeMargins m1 m2) ext) = true /\
  options (snd (ResponsiveCommands.updatePageMargins m2 once))
  = options (snd (ResponsiveCommands.updatePageMargins (mergeMargins m1 m2) ext)) /\
  options (snd (ResponsiveCommands.updatePageMargins m1 once)) = options once.
Proof.
  intros H1 H2 once.
  assert (H12 : all_acceptable (mergeMargins m1 m2)).
  { destruct H1 as (? & ? & ? & ?), H2 as (? & ? & ? & ?).
    repeat split; simpl; now apply later_acceptable. }
  pose proof (proj2 (validate_none_iff m1) H1) as V1.
  pose proof (proj2 (validate_none_iff m2) H2) as V2.
  pose proof (proj2 (validate_none_iff _) H12) as V12.
  unfold once, ResponsiveCommands.updatePageMargins. rewrite V1, V2, V12. simpl.
  split; [reflexivity|]. split.
  - now apply updateOptions_merge.
  - rewrite updateOptions_merge by exact H1. f_equal.
    unfold mergeMargins, later. destruct m1 as [l r t b]. simpl.
    destruct l, r, t, b; reflexivity.
Qed.

Lemma updatePageMargins_compose_witness :
  fst (ResponsiveCommands.updatePageMargins (mergeMargins top_20_right_30 top_790) new_extension)
  = true /\
  options (snd (ResponsiveCommands.updatePageMargins top_790 once_updated))
  = options (snd (ResponsiveCommands.updatePageMargins
                    (mergeMargins top_20_right_30 top_790) new_extension)) /\
  options (snd (ResponsiveCommands.updatePageMargins top_20_right_30 once_updated))
  = options once_updated.
Proof.
  apply (updatePageMargins_compose top_20_right_30 top_790 new_extension);
    repeat split; try (now left); right; eexists; split; reflexivity.
Defined.

(** ** Invariants of the command runs *)

Section RunInvariants.

Lemma exec_cases (c : Command) (ext : Extension) :
  (options (snd (exec c ext)) = options ext /\
   styleElement (snd (exec c ext)) = styleElement ext) \/
  (exists margins, c = UpdatePageMargins margins /\ all_acceptable margins /\
     options (snd (exec c ext)) = updateOptions margins (options ext) /\
     styleElement (snd (exec c ext))
     = updateStyles (updateOptions margins (options ext)) (styleElement ext)).
Proof.
  destruct c as [margins|]; simpl; [|now left].
  unfold ResponsiveCommands.updatePageMargins.
  destruct (validate margins) as [message|] eqn:Hv; simpl; [now left|].
  right. exists margins. rewrite <- validate_none_iff. auto.
Qed.

Lemma assign_not_below_zero (field : jsval) set (get : PaginationPlusOptions -> num) o :
  acceptable field ->
  (forall v o, get (set v o) = v) ->
  not_below_zero (get o) -> not_below_zero (get (assign field set o)).
Proof.
  intros [-> | (n & -> & Hn)] Hget Hold; simpl; [exact Hold|].
  now rewrite Hget.
Qed.

Lemma updateOptions_not_below_zero (margins : MarginUpdate) (o : PaginationPlusOptions) :
  all_acceptable margins ->
  margins_not_below_zero o -> margins_not_below_zero (updateOptions margins o).
Proof.
  intros (Hl & Hr & Ht & Hb) (Ol & Or & Ot & Ob).
  unfold margins_not_below_zero, updateOptions, not_below_zero in *.
  destruct Hl as [-> | (l & -> & Hl)], Hr as [-> | (r & -> & Hr)],
           Ht as [-> | (t & -> & Ht)], Hb as [-> | (b & -> & Hb)];
    simpl; auto.
Qed.

End RunInvariants.

(** X3. Across any run of commands of the responsive revision, accepted
    or refused, the rules of the injected style element stay the ones
    derived from the options in force. *)
Theorem style_stays_in_sync (cs : list Command) (ext : Extension) :
  style_in_sync ext -> style_in_sync (execAll cs ext).
Proof.
  revert ext. induction cs as [|c cs IH]; intros ext Hsync; [exact Hsync|].
  simpl. apply IH. unfold style_in_sync in *.
  destruct (exec_cases c ext) as [(Ho & Hs) | (margins & _ & _ & Ho & Hs)].
  - rewrite Ho, Hs. exact Hsync.
  - rewrite Ho, Hs. destruct (styleElement ext); simpl; intros rules H; congruence.
Qed.

Lemma style_stays_in_sync_witness :
  style_in_sync
    (execAll [UpdatePageMargins top_20_right_30; RefreshPagination;
              UpdatePageMargins left_minus_one] new_extension).
Proof.
  apply (style_stays_in_sync _ new_extension).
  intros rules H. injection H as <-. reflexivity.
Defined.

(** X4. The checks keep the four margin options from ever falling below
    zero: when none of [pageMarginLeft], [pageMarginRight],
    [pageHeaderHeight], [pageFooterHeight] is below zero, none is after any
    run of commands, in either revision. *)
Theorem margins_never_below_zero (ext : Extension) :
  margins_not_below_zero (options ext) ->
  (forall cs : list Command, margins_not_below_zero (options (execAll cs ext))) /\
  (forall updates : list (option MarginUpdate),
      margins_not_below_zero (options (after_updates updates ext))).
Proof.
  intros Hinit. split.
  - intros cs. revert ext Hinit. induction cs as [|c cs IH]; intros ext Hinit; [exact Hinit|].
    simpl. apply IH.
    destruct (exec_cases c ext) as [(Ho & _) | (margins & _ & Hacc & Ho & _)]; rewrite Ho.
    + exact Hinit.
    + now apply updateOptions_not_below_zero.
  - intros updates. revert ext Hinit.
    induction updates as [|margins updates IH]; intros ext Hinit; [exact Hinit|].
    simpl. apply IH. unfold BaseCommands.updatePageMargins.
    destruct margins as [margins|]; [|exact Hinit].
    destruct (validate margins) as [message|] eqn:Hv; [exact Hinit|]. simpl.
    apply updateOptions_not_below_zero; [|exact Hinit]. now apply validate_none_iff.
Qed.

Lemma margins_never_below_zero_witness :
  (forall cs : list Command, margins_not_below_zero (options (execAll cs new_extension))) /\
  (forall updates : list (option MarginUpdate),
      margins_not_below_zero (options (after_updates updates new_extension))).
Proof.
  apply (margins_never_below_zero new_extension). repeat split.
Defined.

(** ** What the widget callback returns *)

Section WidgetResults.

Variable mk : Z -> PageBreak.

(** Whenever the loop ends, the bound was not [Infinity] and the fragment
    holds what it held before, then one break per index up to the bound. *)
Lemma appendBreaks_some (fuel : nat) :
  forall (i : Z) (bound : num) (fragment result : list PageBreak),
    appendBreaks fuel i bound mk fragment = Some result ->
    match bound with
    | Fin b => result = fragment ++ map mk (seqZ i (b - i))
    | PInf => False
    | NInf | NaN => result = fragment
    end.
Proof.
  induction fuel as [|fuel IH]; intros i bound fragment result Hrun; [discriminate Hrun|].
  simpl in Hrun. destruct bound as [b| | |]; simpl in Hrun.
  - destruct (Z.ltb_spec i b) as [Hlt | Hge].
    + apply IH in Hrun. rewrite Hrun, <- app_assoc. f_equal.
      rewrite (seqZ_cons i (b - i)) by lia.
      replace (Z.succ i) with (i + 1)%Z by lia.
      replace (Z.pred (b - i)) with (b - (i + 1))%Z by lia. reflexivity.
    + injection Hrun as <-. rewrite seqZ_nil by lia. simpl. now rewrite app_nil_r.
  - now apply IH in Hrun.
  - now injection Hrun.
  - now injection Hrun.
Qed.

Lemma appendBreaks_Forall (P : PageBreak -> Prop) (fuel : nat) :
  (forall i, P (mk i)) ->
  forall (i : Z) (bound : num) (fragment result : list PageBreak),
    appendBreaks fuel i bound mk fragment = Some result ->
    Forall P fragment -> Forall P result.
Proof.
  intros Hmk i bound fragment result Hrun Hfrag.
  apply appendBreaks_some in Hrun.
  destruct bound as [bnd| | |]; try contradiction; subst; auto.
  apply Forall_app. split; [exact Hfrag|].
  apply Forall_forall. intros pb Hpb.
  apply list_elem_of_fmap in Hpb as (idx & -> & _). apply Hmk.
Qed.

End WidgetResults.

(** With nothing sampled and no more than the headroom rendered before,
    the estimate is zero whatever the options hold. *)
Lemma pages_of_nothing (o : PaginationPlusOptions) (rendered : Z) :
  (rendered <= 5)%Z -> pages o 0 rendered = Fin 0.
Proof.
  intros Hr. unfold pages, previousPageCount, _extraPages.
  destruct (Z.gtb_spec rendered 5) as [Hgt | _]; [lia|].
  generalize (pageGap o + pageHeaderHeight o + pageFooterHeight o
              + pageGapBorderSize o * Fin 2)%num.
  generalize (pageHeight o - (pageHeaderHeight o + pageFooterHeight o))%num.
  intros band overhead.
  destruct overhead as [x| | |], band as [y| | |]; try reflexivity.
  simpl. destruct (Z.eqb_spec y 0); [reflexivity|].
  replace (Zceil_div (0 + - (0 * x)) y) with 0%Z; [reflexivity|].
  unfold Zceil_div. replace (- (0 + - (0 * x)))%Z with 0%Z by lia.
  now rewrite Z.div_0_l.
Qed.

Lemma totalHeight_short (children : list Element) :
  (length children <= 3)%nat -> totalHeight children = 0%Z.
Proof.
  intros Hlen. unfold totalHeight, content_range.
  destruct children as [|a [|b [|c [|d rest]]]]; try reflexivity.
  simpl in Hlen. lia.
Qed.

(** X5. The widget callback never draws fewer than five breaks: whenever
    it returns, in either revision and for any options, the estimate was a
    non-negative integer [n] and the fragment holds exactly [n + 5] breaks;
    it does not return at all when the estimate is [Infinity]. *)
Theorem pageWidget_at_least_five (o : PaginationPlusOptions) (view : View)
    (fuel : nat) (fragment : list PageBreak) :
  BaseSynth.pageWidget fuel o view = Some fragment \/
  ResponsiveSynth.pageWidget fuel o view = Some fragment ->
  exists n : Z,
    pages o (totalHeight (dom_children view))
          (renderedCount (paginationElement (dom_children view))) = Fin n /\
    (0 <= n)%Z /\ length fragment = Z.to_nat (n + 5) /\ (5 <= length fragment)%nat.
Proof.
  unfold BaseSynth.pageWidget, ResponsiveSynth.pageWidget,
    BaseSynth.fragment, ResponsiveSynth.fragment.
  destruct (pages_range o (totalHeight (dom_children view))
              (renderedCount (paginationElement (dom_children view))))
    as [Hinf | (n & Hn & Hfin)].
  - rewrite Hinf. simpl. rewrite !appendBreaks_infinite. intros [H | H]; discriminate H.
  - rewrite Hfin. intros Hrun. exists n.
    assert (Hlen : length fragment = Z.to_nat (n + 5)).
    { destruct Hrun as [Hrun | Hrun]; apply appendBreaks_some in Hrun; simpl in Hrun;
        subst fragment; rewrite length_map, length_seqZ; unfold _extraPages; f_equal; lia. }
    repeat split; auto. lia.
Qed.

Lemma pageWidget_at_least_five_witness :
  exists n : Z,
    pages addOptions (totalHeight (dom_children sample_view))
          (renderedCount (paginationElement (dom_children sample_view))) = Fin n /\
    (0 <= n)%Z /\
    length (default [] (ResponsiveSynth.pageWidget 20 addOptions sample_view))
    = Z.to_nat (n + 5) /\
    (5 <= length (default [] (ResponsiveSynth.pageWidget 20 addOptions sample_view)))%nat.
Proof.
  apply (pageWidget_at_least_five addOptions sample_view 20). right. reflexivity.
Defined.

(** X6. The first draw: on a root with at most three children (no content
    block between the spacers) and no more than five breaks rendered
    before, the callback of either revision draws exactly five breaks, for
    every options record, degenerate ones included. *)
Theorem pageWidget_initial (o : PaginationPlusOptions) (view : View) (fuel : nat) :
  (length (dom_children view) <= 3)%nat ->
  (renderedCount (paginationElement (dom_children view)) <= 5)%Z ->
  (5 < fuel)%nat ->
  exists base responsive : list PageBreak,
    BaseSynth.pageWidget fuel o view = Some base /\ length base = 5%nat /\
    ResponsiveSynth.pageWidget fuel o view = Some responsive /\ length responsive = 5%nat.
Proof.
  intros Hshort Hprev Hfuel.
  destruct (appendBreaks_count
              (fun i => if (i =? 0)%Z
                        then BaseSynth.pageBreakDefinition o (clientWidth view) true i
                        else BaseSynth.pageBreakDefinition o (clientWidth view) false i)
              0 ltac:(lia)) as (base & Hlb & _ & Hb).
  destruct (appendBreaks_count
              (fun i => ResponsiveSynth.createPageBreak (i =? 0)%Z i o) 0 ltac:(lia))
    as (resp & Hlr & _ & Hr).
  exists base, resp.
  unfold BaseSynth.pageWidget, ResponsiveSynth.pageWidget,
    BaseSynth.fragment, ResponsiveSynth.fragment.
  rewrite (totalHeight_short _ Hshort), (pages_of_nothing o _ Hprev).
  repeat split; auto.
Qed.

Lemma pageWidget_initial_witness :
  exists base responsive : list PageBreak,
    BaseSynth.pageWidget 6 addOptions empty_view = Some base /\ length base = 5%nat /\
    ResponsiveSynth.pageWidget 6 addOptions empty_view = Some responsive /\
    length responsive = 5%nat.
Proof.
  apply (pageWidget_initial addOptions empty_view 6); simpl; lia.
Defined.

(** ** Bands, degenerate bands, and the two revisions side by side *)

Lemma appendBreaks_related {A : Type} (f : PageBreak -> A) (mk1 mk2 : Z -> PageBreak)
    (bound : num) (fuel : nat) :
  (forall i, f (mk1 i) = f (mk2 i)) ->
  forall (i : Z) (fragment1 fragment2 : list PageBreak),
    map f fragment1 = map f fragment2 ->
    option_map (map f) (appendBreaks fuel i bound mk1 fragment1)
    = option_map (map f) (appendBreaks fuel i bound mk2 fragment2).
Proof.
  intros Hmk. induction fuel as [|fuel IH]; intros i fragment1 fragment2 Hfrag; [reflexivity|].
  cbn [appendBreaks]. destruct (Fin i <? bound)%num.
  - apply IH. rewrite !map_app. simpl. now rewrite Hfrag, Hmk.
  - simpl. now rewrite Hfrag.
Qed.

(** X7. Every break of a synthesized fragment, in either revision, has
    header, footer and gap bands of the heights the options hold at that
    moment.  Hence after an accepted [updatePageMargins] that provides
    [top] (or [bottom]), every header (footer) band of any later synthesis
    measures the value provided. *)
Theorem bands_follow_update (margins : MarginUpdate) (ext : Extension) (view : View)
    (fuel : nat) (fragment : list PageBreak) :
  fst (ResponsiveCommands.updatePageMargins margins ext) = true ->
  let o := options (snd (ResponsiveCommands.updatePageMargins margins ext)) in
  BaseSynth.pageWidget fuel o view = Some fragment \/
  ResponsiveSynth.pageWidget fuel o view = Some fragment ->
  Forall (bands_follow o) fragment /\
  (forall t, top margins = JNumber t -> Forall (fun b => header_height b = t) fragment) /\
  (forall t, bottom margins = JNumber t -> Forall (fun b => footer_height b = t) fragment).
Proof.
  intros Hok o Hrun.
  assert (Hbands : Forall (bands_follow o) fragment).
  { unfold BaseSynth.pageWidget, ResponsiveSynth.pageWidget,
      BaseSynth.fragment, ResponsiveSynth.fragment in Hrun.
    destruct Hrun as [Hrun | Hrun].
    - eapply appendBreaks_Forall; [|exact Hrun|constructor].
      intros i. cbv beta. destruct (i =? 0)%Z; repeat split.
    - eapply appendBreaks_Forall; [|exact Hrun|constructor].
      intros i. cbv beta. repeat split. }
  split; [exact Hbands|].
  assert (Hframe : margins_frame margins (options ext) o).
  { unfold o, ResponsiveCommands.updatePageMargins in *.
    destruct (validate margins) as [message|] eqn:Hv; [discriminate Hok|].
    simpl. now apply updateOptions_frame. }
  destruct Hframe as (_ & _ & _ & _ & _ & _ & _ & (_ & Htop) & (_ & Hbottom)).
  split; intros t Ht; eapply Forall_impl; try exact Hbands;
    intros b (Hh & Hf & _); simpl.
  - rewrite Hh. now apply Htop.
  - rewrite Hf. now apply Hbottom.
Qed.

Lemma bands_follow_update_witness :
  Forall (bands_follow (options once_updated))
    (default [] (ResponsiveSynth.pageWidget 20 (options once_updated) sample_view)) /\
  (forall t, top top_20_right_30 = JNumber t ->
     Forall (fun b => header_height b = t)
       (default [] (ResponsiveSynth.pageWidget 20 (options once_updated) sample_view))) /\
  (forall t, bottom top_20_right_30 = JNumber t ->
     Forall (fun b => footer_height b = t)
       (default [] (ResponsiveSynth.pageWidget 20 (options once_updated) sample_view))).
Proof.
  apply (bands_follow_update top_20_right_30 new_extension sample_view 20);
    [reflexivity | right; reflexivity].
Defined.

(** X8. Nothing keeps an accepted update from closing the content band:
    when the options are finite with [pageHeight = pageHeaderHeight +
    pageFooterHeight] and the sampled height exceeds the overhead
    subtracted, the estimate is [Infinity]; the callback of either revision
    then returns for no amount of fuel, and neither does a refresh. *)
Theorem degenerate_band_never_returns (o : PaginationPlusOptions) (view : View)
    (ph hh fh pg bs : Z) :
  pageHeight o = Fin ph -> pageHeaderHeight o = Fin hh -> pageFooterHeight o = Fin fh ->
  pageGap o = Fin pg -> pageGapBorderSize o = Fin bs ->
  ph = (hh + fh)%Z ->
  (previousPageCount (renderedCount (paginationElement (dom_children view)))
   * (pg + hh + fh + bs * 2) < totalHeight (dom_children view))%Z ->
  pages o (totalHeight (dom_children view))
        (renderedCount (paginationElement (dom_children view))) = PInf /\
  forall fuel : nat,
    BaseSynth.pageWidget fuel o view = None /\
    ResponsiveSynth.pageWidget fuel o view = None /\
    forall pageOffsetTop (ed : Editor),
      options (ed_ext ed) = o -> ed_view ed = view ->
      refreshPagination pageOffsetTop fuel ed = None.
Proof.
  intros Hph Hhh Hfh Hpg Hbs Hband Hcontent.
  assert (Hinf : pages o (totalHeight (dom_children view))
                   (renderedCount (paginationElement (dom_children view))) = PInf).
  { unfold pages. rewrite Hph, Hhh, Hfh, Hpg, Hbs. simpl.
    replace (ph + - (hh + fh))%Z with 0%Z by lia. simpl.
    set (a := (_ + - _)%Z). assert (Ha : (0 < a)%Z) by (unfold a; lia).
    destruct (Z.ltb_spec 0 a); [reflexivity | lia]. }
  split; [exact Hinf|]. intros fuel.
  assert (Hresp : ResponsiveSynth.pageWidget fuel o view = None).
  { unfold ResponsiveSynth.pageWidget, ResponsiveSynth.fragment. rewrite Hinf.
    apply appendBreaks_infinite. }
  split; [|split; [exact Hresp|]].
  - unfold BaseSynth.pageWidget, BaseSynth.fragment. rewrite Hinf.
    apply appendBreaks_infinite.
  - intros pageOffsetTop ed Ho Hview. rewrite refreshPagination_redraw.
    unfold redraw. now rewrite Ho, Hview, Hresp.
Qed.

Lemma degenerate_band_never_returns_witness :
  fst (ResponsiveCommands.updatePageMargins top_790 new_extension) = true /\
  pages (options degenerate_extension) (totalHeight (dom_children sample_view))
        (renderedCount (paginationElement (dom_children sample_view))) = PInf /\
  forall fuel : nat,
    BaseSynth.pageWidget fuel (options degenerate_extension) sample_view = None /\
    ResponsiveSynth.pageWidget fuel (options degenerate_extension) sample_view = None /\
    forall pageOffsetTop (ed : Editor),
      options (ed_ext ed) = options degenerate_extension -> ed_view ed = sample_view ->
      refreshPagination pageOffsetTop fuel ed = None.
Proof.
  split; [reflexivity|].
  apply (degenerate_band_never_returns (options degenerate_extension) sample_view
           800 790 10 50 1); reflexivity.
Defined.

(** X9. For the same options, tree and fuel the widget callbacks of the
    two revisions return fragments of the same length (or both do not
    return) whose breaks agree, index by index, in the top margin of the
    page, footer height, footer text, gap height, gap background and header
    height. *)
Theorem revisions_agree (o : PaginationPlusOptions) (view : View) (fuel : nat) :
  option_map (map shared_geometry) (BaseSynth.pageWidget fuel o view)
  = option_map (map shared_geometry) (ResponsiveSynth.pageWidget fuel o view).
Proof.
  unfold BaseSynth.pageWidget, ResponsiveSynth.pageWidget,
    BaseSynth.fragment, ResponsiveSynth.fragment.
  apply appendBreaks_related; [|reflexivity].
  intros i. unfold shared_geometry. destruct (i =? 0)%Z; simpl;
    now rewrite resolveFooterText_agree.
Qed.

(** ** Bounds on the estimate *)

(** X10. On a valid geometry the estimate [n] is tight: with [band] the
    content band and [adjusted] the sampled height less the overhead,
    [n + 1] bands hold the adjusted height, and when [n] is positive [n]
    bands do not. *)
Theorem pages_tight (o : PaginationPlusOptions) (sampled rendered : Z) :
  valid_geometry o = true ->
  exists n band adjusted : Z,
    pages o sampled rendered = Fin n /\
    (pageHeight o - (pageHeaderHeight o + pageFooterHeight o))%num = Fin band /\
    (Fin sampled - Fin (previousPageCount rendered)
                   * (pageGap o + pageHeaderHeight o + pageFooterHeight o
                      + pageGapBorderSize o * Fin 2))%num = Fin adjusted /\
    (0 <= n)%Z /\ (0 < band)%Z /\
    (adjusted <= (n + 1) * band)%Z /\
    ((0 < n)%Z -> (n * band < adjusted)%Z).
Proof.
  intros Hvalid.
  destruct (pages_valid o sampled rendered Hvalid)
    as (ph & pg & hh & fh & bs & Eph & Epg & Ehh & Efh & Ebs & Hpos & Hpages).
  rewrite Hpages, Eph, Epg, Ehh, Efh, Ebs, previousPageCount_max.
  set (band := (ph - (hh + fh))%Z) in *.
  set (adjusted := (sampled - Z.max 0 (rendered - 5) * (pg + hh + fh + bs * 2))%Z) in *.
  exists (Z.max 0 (Zceil_div adjusted band - 1)), band, adjusted.
  pose proof (Zceil_div_bounds adjusted band ltac:(lia)) as Hceil.
  split; [reflexivity|]. split; [simpl; f_equal; unfold band; lia|].
  split; [simpl; f_equal; unfold adjusted; lia|].
  split; [lia|]. split; [lia|]. split; nia.
Qed.

Lemma pages_tight_witness :
  exists n band adjusted : Z,
    pages addOptions 10000 17 = Fin n /\
    (pageHeight addOptions - (pageHeaderHeight addOptions + pageFooterHeight addOptions))%num
    = Fin band /\
    (Fin 10000 - Fin (previousPageCount 17)
                 * (pageGap addOptions + pageHeaderHeight addOptions
                    + pageFooterHeight addOptions + pageGapBorderSize addOptions * Fin 2))%num
    = Fin adjusted /\
    (0 <= n)%Z /\ (0 < band)%Z /\
    (adjusted <= (n + 1) * band)%Z /\
    ((0 < n)%Z -> (n * band < adjusted)%Z).
Proof.
  apply (pages_tight addOptions 10000 17). reflexivity.
Defined.

Lemma pages_flat (o : PaginationPlusOptions) (sampled rendered : Z) :
  (rendered <= 5)%Z -> pages o sampled rendered = pages o sampled 0.
Proof.
  intros Hr. unfold pages. rewrite !previousPageCount_max.
  now replace (Z.max 0 (rendered - 5)) with (Z.max 0 (0 - 5)) by lia.
Qed.

Lemma pages_falls (o : PaginationPlusOptions) (sampled r1 r2 : Z) :
  valid_geometry o = true -> (r1 <= r2)%Z ->
  JsNum.le (pages o sampled r2) (pages o sampled r1).
Proof.
  intros Hvalid Hle.
  destruct (pages_valid o sampled r1 Hvalid)
    as (ph & pg & hh & fh & bs & Eph & Epg & Ehh & Efh & Ebs & Hpos & E1).
  destruct (pages_valid o sampled r2 Hvalid)
    as (ph' & pg' & hh' & fh' & bs' & Eph' & Epg' & Ehh' & Efh' & Ebs' & _ & E2).
  rewrite Eph in Eph'. rewrite Epg in Epg'. rewrite Ehh in Ehh'.
  rewrite Efh in Efh'. rewrite Ebs in Ebs'.
  injection Eph' as <-. injection Epg' as <-. injection Ehh' as <-.
  injection Efh' as <-. injection Ebs' as <-.
  rewrite E1, E2. simpl.
  apply Z.max_le_compat_l, Z.sub_le_mono_r, Zceil_div_mono; [lia|].
  apply Z.sub_le_mono_l, Z.mul_le_mono_nonneg_r; lia.
Qed.

(** X11. The number of breaks rendered before only lowers the estimate:
    up to the headroom of five it has no influence at all, for any options;
    beyond, on a valid geometry, more rendered breaks never give a higher
    estimate. *)
Theorem pages_antitone (o : PaginationPlusOptions) (sampled r1 r2 : Z) :
  ((r1 <= 5)%Z -> pages o sampled r1 = pages o sampled 0) /\
  (valid_geometry o = true -> (r1 <= r2)%Z ->
   JsNum.le (pages o sampled r2) (pages o sampled r1)).
Proof.
  split; [apply pages_flat | apply pages_falls].
Qed.

Lemma pages_antitone_witness :
  pages addOptions 10000 3 = pages addOptions 10000 0 /\
  JsNum.le (pages addOptions 10000 17) (pages addOptions 10000 6).
Proof.
  destruct (pages_antitone addOptions 10000 3 3) as [Hflat _].
  destruct (pages_antitone addOptions 10000 6 17) as [_ Hanti].
  split; [apply Hflat; lia | apply Hanti; [reflexivity | lia]].
Defined.

(** ** What a refresh of the page changes *)

Section RefreshFrame.

Lemma findPages_id (children : list Element) (target : Element) :
  findPages children = Some target -> el_id target = "pages".
Proof.
  unfold findPages. induction children as [|child rest IH]; [discriminate|].
  simpl. destruct (String.eqb_spec (el_id child) "pages") as [Hid | Hid].
  - intros H. injection H as <-. exact Hid.
  - exact IH.
Qed.

Lemma replacePages_length (target : Element) (children : list Element) :
  length (replacePages target children) = length children.
Proof.
  induction children as [|child rest IH]; [reflexivity|].
  simpl. destruct (el_id child =? "pages"); simpl; congruence.
Qed.

Lemma replacePages_other (target : Element) (children : list Element) :
  forall (i : nat) (child : Element),
    children !! i = Some child -> el_id child <> "pages" ->
    replacePages target children !! i = Some child.
Proof.
  induction children as [|first rest IH]; intros i child Hi Hid; [discriminate Hi|].
  simpl. destruct (String.eqb_spec (el_id first) "pages") as [Hfirst | Hfirst].
  - destruct i as [|i]; simpl in *; [|exact Hi].
    injection Hi as ->. contradiction.
  - destruct i as [|i]; simpl in *; [exact Hi|]. now apply IH.
Qed.

Lemma findPages_replacePages (target target' : Element) (children : list Element) :
  findPages children = Some target -> el_id target' = "pages" ->
  findPages (replacePages target' children) = Some target'.
Proof.
  unfold findPages. intros Hfind Hid.
  induction children as [|child rest IH]; [discriminate Hfind|].
  simpl in *. destruct (String.eqb_spec (el_id child) "pages") as [Hc | Hc].
  - simpl. now rewrite Hid.
  - simpl. destruct (String.eqb_spec (el_id child) "pages"); [contradiction|]. now apply IH.
Qed.

Lemma refreshPageWith_keeps (ph pg bs : num) restyle (root : Root) :
  keeps_content root (refreshPageWith ph pg bs restyle root) /\
  (findPages (root_children root) = None -> refreshPageWith ph pg bs restyle root = root).
Proof.
  unfold refreshPageWith, keeps_content.
  destruct (findPages (root_children root)) as [target|]; simpl.
  - split; [|discriminate]. split; [apply replacePages_length|].
    intros i child. apply replacePages_other.
  - auto.
Qed.


Lemma markLastPage_keeps (m : Z) (breaks : list RenderedBreak) :
  map rb_break (markLastPage (Fin m) breaks) = map rb_break breaks /\
  map rb_pageTop (markLastPage (Fin m) breaks) = map rb_pageTop breaks.
Proof.
  unfold markLastPage. simpl.
  destruct ((0 <=? m + 1)%Z && (m + 1 <? Z.of_nat (length breaks))%Z); [|auto].
  split; apply list_eq; intros i; rewrite !list_lookup_fmap, list_lookup_alter;
    destruct (decide (Z.to_nat (m + 1) = i)) as [<- | _]; try reflexivity;
    now destruct (breaks !! Z.to_nat (m + 1)).
Qed.

End RefreshFrame.

(** X12. A refresh of the page, in either revision, keeps the number of
    children of the root and every child that is not a [#pages] element;
    when the root has no [#pages] child it changes nothing at all, minimum
    height included. *)
Theorem refreshPage_keeps_content (o : PaginationPlusOptions) (c : BasePage.Closure)
    (root : Root) :
  keeps_content root (ResponsivePage.refreshPage o root) /\
  keeps_content root (BasePage.refreshPage c o root) /\
  (findPages (root_children root) = None ->
   ResponsivePage.refreshPage o root = root /\ BasePage.refreshPage c o root = root).
Proof.
  unfold ResponsivePage.refreshPage, BasePage.refreshPage.
  split; [apply refreshPageWith_keeps|]. split; [apply refreshPageWith_keeps|].
  intros Hnone. split; now apply refreshPageWith_keeps.
Qed.

Lemma refreshPage_keeps_content_witness :
  keeps_content bare_root (ResponsivePage.refreshPage addOptions bare_root) /\
  keeps_content bare_root (BasePage.refreshPage default_closure addOptions bare_root) /\
  ResponsivePage.refreshPage addOptions bare_root = bare_root /\
  BasePage.refreshPage default_closure addOptions bare_root = bare_root.
Proof.
  destruct (refreshPage_keeps_content addOptions default_closure bare_root)
    as (Hr & Hb & Hnone).
  split; [exact Hr|]. split; [exact Hb|]. apply Hnone. reflexivity.
Defined.



(** ** Classification into page buckets *)

Section Buckets.

Lemma pageTops_nonzeroTops (offsetTops : list Z) :
  pageTops offsetTops = map Fin (nonzeroTops offsetTops) ++ [PInf].
Proof. reflexivity. Qed.

Lemma bucket_found (t : Z) (boundaries : list Z) :
  forall (j p : Z),
    bucket (map Fin boundaries ++ [PInf]) j (Fin t) = Some p ->
    exists k : nat,
      p = (j + Z.of_nat k + 1)%Z /\ in_bucket boundaries k t /\
      forall k' : nat, (k' < k)%nat -> ~ in_bucket boundaries k' t.
Proof.
  induction boundaries as [|a rest IH]; intros j p Hrun; [discriminate Hrun|].
  destruct rest as [|b rest].
  - simpl in Hrun. rewrite andb_true_r in Hrun.
    destruct (Z.leb_spec a t) as [Hle | Hgt]; [|discriminate Hrun].
    injection Hrun as <-. exists 0%nat. split; [lia|]. split; [|intros k' Hk'; lia].
    exists a. split; [reflexivity|]. split; [exact Hle|]. intros hi Hhi. discriminate Hhi.
  - change (bucket (map Fin (a :: b :: rest) ++ [PInf]) j (Fin t))
      with (if (a <=? t)%Z && (t <? b)%Z then Some (j + 1)%Z
            else bucket (map Fin (b :: rest) ++ [PInf]) (j + 1) (Fin t)) in Hrun.
    destruct ((a <=? t)%Z && (t <? b)%Z) eqn:Hcond.
    + apply andb_prop in Hcond as [Hle Hlt].
      apply Z.leb_le in Hle. apply Z.ltb_lt in Hlt.
      injection Hrun as <-. exists 0%nat. split; [lia|]. split; [|intros k' Hk'; lia].
      exists a. split; [reflexivity|]. split; [exact Hle|].
      intros hi Hhi. injection Hhi as <-. exact Hlt.
    + apply IH in Hrun as (k & -> & Hin & Hfirst).
      exists (S k). split; [lia|]. split; [exact Hin|].
      intros [|k'] Hk'.
      * intros (lo & Hlo & Hle & Hnext). injection Hlo as <-.
        specialize (Hnext b eq_refl).
        apply andb_false_iff in Hcond as [Hc | Hc];
          [apply Z.leb_gt in Hc | apply Z.ltb_ge in Hc]; lia.
      * apply (Hfirst k'). lia.
Qed.

Lemma bucket_exists (t : Z) (rest : list Z) :
  forall (first j : Z),
    (first <= t)%Z ->
    is_Some (bucket (map Fin (first :: rest) ++ [PInf]) j (Fin t)).
Proof.
  induction rest as [|b rest IH]; intros first j Hle.
  - simpl. destruct (Z.leb_spec first t); [eauto | lia].
  - change (bucket (map Fin (first :: b :: rest) ++ [PInf]) j (Fin t))
      with (if (first <=? t)%Z && (t <? b)%Z then Some (j + 1)%Z
            else bucket (map Fin (b :: rest) ++ [PInf]) (j + 1) (Fin t)).
    destruct ((first <=? t)%Z && (t <? b)%Z) eqn:Hcond; [eauto|].
    apply IH. apply andb_false_iff in Hcond as [Hc | Hc];
      [apply Z.leb_gt in Hc | apply Z.ltb_ge in Hc]; lia.
Qed.

Lemma in_bucket_lt (boundaries : list Z) (k : nat) (t : Z) :
  in_bucket boundaries k t -> (k < length boundaries)%nat.
Proof. intros (lo & Hlo & _). now apply lookup_lt_Some in Hlo. Qed.

Lemma pagesWithContent_fold (tops : list num) (els : list Element) :
  forall (acc : gset Z) (p : Z),
    p ∈ foldl (fun acc el =>
                 match bucket tops 0 (Fin (el_offsetTop el)) with
                 | Some page => acc ∪ {[ page ]}
                 | None => acc
                 end) acc els
    <-> p ∈ acc \/ exists el, el ∈ els /\ bucket tops 0 (Fin (el_offsetTop el)) = Some p.
Proof.
  induction els as [|el els IH]; intros acc p; simpl.
  - split; [now left|]. intros [H | (el & Hel & _)]; [exact H|].
    now apply elem_of_nil in Hel.
  - rewrite IH. split.
    + intros [Hacc | (el' & Hel' & Hb)].
      * destruct (bucket tops 0 (Fin (el_offsetTop el))) as [page|] eqn:Hpage.
        -- apply elem_of_union in Hacc as [Hacc | Hp]; [now left|].
           apply elem_of_singleton in Hp as ->. right. exists el.
           split; [apply list_elem_of_here | exact Hpage].
        -- now left.
      * right. exists el'. split; [now apply list_elem_of_further | exact Hb].
    + intros [Hacc | (el' & Hel' & Hb)].
      * left. destruct (bucket tops 0 (Fin (el_offsetTop el))); [|exact Hacc].
        apply elem_of_union. now left.
      * apply elem_of_cons in Hel' as [-> | Hel'].
        -- left. rewrite Hb. apply elem_of_union. right. now apply elem_of_singleton.
        -- right. exists el'. auto.
Qed.

End Buckets.

(** X14. Classification of an offset [t] against the page offsets: the
    page index returned is one more than the index of the first bucket of
    the non-zero offsets that holds [t] (it starts at or before [t] and the
    next boundary, if any, lies beyond).  Every offset at or beyond the
    first non-zero page offset is classified; when all page offsets are
    zero nothing is. *)
Theorem bucket_classifies (offsetTops : list Z) (t : Z) :
  (forall p : Z,
      bucket (pageTops offsetTops) 0 (Fin t) = Some p ->
      exists k : nat,
        p = (Z.of_nat k + 1)%Z /\ in_bucket (nonzeroTops offsetTops) k t /\
        forall k' : nat, (k' < k)%nat -> ~ in_bucket (nonzeroTops offsetTops) k' t) /\
  (forall first : Z,
      head (nonzeroTops offsetTops) = Some first -> (first <= t)%Z ->
      is_Some (bucket (pageTops offsetTops) 0 (Fin t))) /\
  (nonzeroTops offsetTops = [] -> bucket (pageTops offsetTops) 0 (Fin t) = None).
Proof.
  rewrite pageTops_nonzeroTops. split; [|split].
  - intros p Hp. apply bucket_found in Hp as (k & -> & Hin & Hfirst).
    exists k. split; [lia | auto].
  - intros first Hhead Hle. destruct (nonzeroTops offsetTops) as [|a rest]; [discriminate|].
    injection Hhead as ->. now apply bucket_exists.
  - intros ->. reflexivity.
Qed.

Lemma bucket_classifies_witness :
  is_Some (bucket (pageTops [0; 900; 1800]%Z) 0 (Fin 950)) /\
  bucket (pageTops [0; 0]%Z) 0 (Fin 950) = None.
Proof.
  destruct (bucket_classifies [0; 900; 1800]%Z 950) as (_ & Hsome & _).
  destruct (bucket_classifies [0; 0]%Z 950) as (_ & _ & Hnone).
  split; [apply (Hsome 900%Z); [reflexivity | lia] | apply Hnone; reflexivity].
Defined.

(** X15. The populated pages of a refresh are exactly the page indexes of
    the content blocks (the children of the root but the first two and the
    last); each lies between 1 and the number of non-zero page offsets, so
    the highest never exceeds the number of breaks. *)
Theorem pagesWithContent_exact (offsetTops : list Z) (contentElements : list Element) :
  (forall p : Z,
      p ∈ pagesWithContent (pageTops offsetTops) contentElements <->
      exists el, el ∈ content_range contentElements /\
                 bucket (pageTops offsetTops) 0 (Fin (el_offsetTop el)) = Some p) /\
  (forall p : Z,
      p ∈ pagesWithContent (pageTops offsetTops) contentElements ->
      (1 <= p <= Z.of_nat (length (nonzeroTops offsetTops)))%Z) /\
  exists m : Z,
    maxPage (pagesWithContent (pageTops offsetTops) contentElements) = Fin m /\
    (0 <= m <= Z.of_nat (length offsetTops))%Z.
Proof.
  assert (Hexact : forall p : Z,
      p ∈ pagesWithContent (pageTops offsetTops) contentElements <->
      exists el, el ∈ content_range contentElements /\
                 bucket (pageTops offsetTops) 0 (Fin (el_offsetTop el)) = Some p).
  { intros p. unfold pagesWithContent. rewrite pagesWithContent_fold.
    split; [|auto]. intros [Hempty | H]; [|exact H]. now apply not_elem_of_empty in Hempty. }
  assert (Hbound : forall p : Z,
      p ∈ pagesWithContent (pageTops offsetTops) contentElements ->
      (1 <= p <= Z.of_nat (length (nonzeroTops offsetTops)))%Z).
  { intros p Hp. apply Hexact in Hp as (el & _ & Hb).
    rewrite pageTops_nonzeroTops in Hb. apply bucket_found in Hb as (k & -> & Hin & _).
    apply in_bucket_lt in Hin. lia. }
  split; [exact Hexact|]. split; [exact Hbound|].
  destruct (maxPage_highest (pagesWithContent (pageTops offsetTops) contentElements))
    as (m & Hm & Hempty & Hne).
  exists m. split; [exact Hm|].
  pose proof (length_filter (fun top => top <> 0%Z) offsetTops) as Hlen.
  fold (nonzeroTops offsetTops) in Hlen.
  destruct (decide (pagesWithContent (pageTops offsetTops) contentElements = ∅)) as [He | He].
  - rewrite (Hempty He). lia.
  - destruct (Hne He) as [Hin _]. apply Hbound in Hin. lia.
Qed.

(** ** Commands and the plugin *)

(** X16. Every command that succeeds dispatches exactly one transaction,
    which changes no document and makes [apply] of the responsive revision
    build a new decoration set, a new object with a new run of
    [createDecoration]; a command that fails dispatches nothing.  The
    transaction of [refreshPagination] carries the resize key only, which
    [apply] of the base revision does not look at: there it returns the
    previous set. *)
Theorem command_then_apply (c : Command) (ext : Extension) (oldDeco : DecorationSet)
    (st : EditorState) (s : Store) :
  (fst (exec c ext) = false -> sentBy c ext = []) /\
  (fst (exec c ext) = true ->
   exists tr, sentBy c ext = [tr] /\ docChanged tr = false /\
     ResponsivePlugin.apply tr oldDeco st st s = resynthesize st s /\
     ds_object (fst (resynthesize st s)) = next_object s /\
     syntheses (snd (resynthesize st s)) = S (syntheses s)) /\
  sentBy RefreshPagination ext = [setMeta state_tr resize_meta_key (JBool true)] /\
  BasePlugin.apply (setMeta state_tr resize_meta_key (JBool true)) oldDeco st st s
  = (oldDeco, s).
Proof.
  unfold sentBy. split; [|split; [|split]].
  - destruct c as [margins|]; simpl; [|discriminate].
    unfold ResponsiveCommands.updatePageMargins.
    destruct (validate margins); simpl; [|discriminate].
    intros _. now rewrite drop_all.
  - destruct c as [margins|]; simpl.
    + unfold ResponsiveCommands.updatePageMargins.
      destruct (validate margins); simpl; [discriminate|]. intros _.
      rewrite drop_app_length. eexists. split; [reflexivity|]. repeat split.
    + intros _. rewrite drop_app_length. eexists. split; [reflexivity|]. repeat split.
  - simpl. now rewrite drop_app_length.
  - reflexivity.
Qed.

Lemma command_then_apply_witness :
  sentBy (UpdatePageMargins left_minus_one) new_extension = [] /\
  (exists tr, sentBy (UpdatePageMargins top_20_right_30) new_extension = [tr] /\
     docChanged tr = false /\
     ResponsivePlugin.apply tr old_deco some_state some_state some_store
     = resynthesize some_state some_store /\
     ds_object (fst (resynthesize some_state some_store)) = next_object some_store /\
     syntheses (snd (resynthesize some_state some_store)) = S (syntheses some_store)).
Proof.
  split.
  - apply (command_then_apply (UpdatePageMargins left_minus_one) new_extension
             old_deco some_state some_store). reflexivity.
  - apply (command_then_apply (UpdatePageMargins top_20_right_30) new_extension
             old_deco some_state some_store). reflexivity.
Defined.

(** ** Refreshing again and again *)

Section Monotone.

(** A monotone map into a bounded range of integers reaches a fixed point
    from anywhere by iteration. *)
Variable h : Z -> Z.
Variables L U : Z.
Hypothesis h_monotone : forall x y, (x <= y)%Z -> (h x <= h y)%Z.
Hypothesis h_range : forall x, (L <= h x <= U)%Z.

Lemma stall_up (d : nat) :
  forall x : Z, (x <= h x)%Z -> (U - x <= Z.of_nat d)%Z ->
    exists k : nat, h (Nat.iter k h x) = Nat.iter k h x.
Proof.
  induction d as [|d IH]; intros x Hup Hd.
  - exists 0%nat. simpl. pose proof (h_range x). lia.
  - destruct (Z.eq_dec (h x) x) as [Hfix | Hmove]; [now exists 0%nat|].
    destruct (IH (h x)) as [k Hk]; [apply h_monotone; lia | lia |].
    exists (S k). rewrite Nat.iter_succ_r. exact Hk.
Qed.

Lemma stall_down (d : nat) :
  forall x : Z, (h x <= x)%Z -> (x - L <= Z.of_nat d)%Z ->
    exists k : nat, h (Nat.iter k h x) = Nat.iter k h x.
Proof.
  induction d as [|d IH]; intros x Hdown Hd.
  - exists 0%nat. simpl. pose proof (h_range x). lia.
  - destruct (Z.eq_dec (h x) x) as [Hfix | Hmove]; [now exists 0%nat|].
    destruct (IH (h x)) as [k Hk]; [apply h_monotone; lia | lia |].
    exists (S k). rewrite Nat.iter_succ_r. exact Hk.
Qed.

Lemma stalls (x : Z) : exists k : nat, h (Nat.iter k h x) = Nat.iter k h x.
Proof.
  pose proof (h_range x) as Hr.
  destruct (Z.le_ge_cases x (h x)) as [Hup | Hdown].
  - apply (stall_up (Z.to_nat (U - x))); lia.
  - apply (stall_down (Z.to_nat (x - L))); lia.
Qed.

End Monotone.

Lemma iter_twice (f : Z -> Z) (k : nat) (x : Z) :
  Nat.iter k (fun y => f (f y)) x = Nat.iter (2 * k) f x.
Proof.
  induction k as [|k IH]; [reflexivity|].
  replace (2 * S k)%nat with (S (S (2 * k))) by lia. simpl. now rewrite IH.
Qed.

(** An antitone map into a bounded range ends in a cycle of length at
    most two. *)
Lemma antitone_period_two (f : Z -> Z) (L U : Z) :
  (forall x y, (x <= y)%Z -> (f y <= f x)%Z) ->
  (forall x, (L <= f x <= U)%Z) ->
  forall x : Z, exists K : nat, forall k : nat, (K <= k)%nat ->
    Nat.iter (k + 2) f x = Nat.iter k f x.
Proof.
  intros Hanti Hrange x.
  destruct (stalls (fun y => f (f y)) L U) with (x := x) as [j Hj].
  - intros a b Hab. now apply Hanti, Hanti.
  - intros a. apply Hrange.
  - rewrite iter_twice in Hj. exists (2 * j)%nat. intros k Hk.
    assert (Hper : forall m : nat,
               Nat.iter (m + (2 + 2 * j)) f x = Nat.iter (m + 2 * j) f x).
    { intros m. rewrite !Nat.iter_add. f_equal. exact Hj. }
    replace (k + 2)%nat with ((k - 2 * j) + (2 + 2 * j))%nat by lia.
    rewrite Hper. now replace (k - 2 * j + 2 * j)%nat with k by lia.
Qed.

Section CountSequence.

Variable o : PaginationPlusOptions.
Variable sampled : Z.
Hypothesis o_valid : valid_geometry o = true.

Lemma nextCount_pages (rendered : Z) :
  pages o sampled rendered = Fin (nextCount o sampled rendered - 5) /\
  (5 <= nextCount o sampled rendered)%Z.
Proof.
  unfold nextCount.
  destruct (pages_valid o sampled rendered o_valid)
    as (? & ? & ? & ? & ? & _ & _ & _ & _ & _ & _ & ->).
  split; [f_equal; lia | lia].
Qed.

Lemma nextCount_antitone (r1 r2 : Z) :
  (r1 <= r2)%Z -> (nextCount o sampled r2 <= nextCount o sampled r1)%Z.
Proof.
  intros Hle. pose proof (pages_falls o sampled r1 r2 o_valid Hle) as Hanti.
  destruct (nextCount_pages r1) as [E1 _], (nextCount_pages r2) as [E2 _].
  rewrite E1, E2 in Hanti. simpl in Hanti. lia.
Qed.

Lemma nextCount_range (rendered : Z) :
  (5 <= nextCount o sampled rendered <= nextCount o sampled 0)%Z.
Proof.
  split; [apply nextCount_pages|].
  destruct (Z.le_ge_cases 0 rendered) as [Hpos | Hneg].
  - now apply nextCount_antitone.
  - unfold nextCount. rewrite (pages_flat o sampled rendered) by lia. lia.
Qed.

Lemma countAfter_period_two (rendered : Z) :
  exists K : nat, forall k : nat, (K <= k)%nat ->
    countAfter o sampled (k + 2) rendered = countAfter o sampled k rendered.
Proof.
  unfold countAfter.
  apply (antitone_period_two (nextCount o sampled) 5 (nextCount o sampled 0)).
  - intros x y. apply nextCount_antitone.
  - apply nextCount_range.
Qed.

Lemma countAfter_range (k : nat) (rendered : Z) :
  (countAfter o sampled (S k) rendered <= nextCount o sampled 0)%Z.
Proof. unfold countAfter. simpl. apply nextCount_range. Qed.

End CountSequence.

Section RefreshRuns.

Variable pageOffsetTop : list PageBreak -> nat -> Z.

(** One refresh over a tree that starts with the widget: the widget is
    replaced by the breaks synthesized for the current estimate; options,
    sampled height and the place of the widget stay. *)
Lemma refresh_step (ed : Editor) (fuel : nat) :
  valid_geometry (options (ed_ext ed)) = true ->
  widget_first ed ->
  (Z.to_nat (nextCount (options (ed_ext ed)) (totalHeight (dom_children (ed_view ed)))
                       (Z.of_nat (length (layoutOf ed)))) < fuel)%nat ->
  exists ed' : Editor,
    refreshPagination pageOffsetTop fuel ed = Some ed' /\
    widget_first ed' /\
    options (ed_ext ed') = options (ed_ext ed) /\
    totalHeight (dom_children (ed_view ed')) = totalHeight (dom_children (ed_view ed)) /\
    layoutOf ed'
    = synthesized (options (ed_ext ed))
        (nextCount (options (ed_ext ed)) (totalHeight (dom_children (ed_view ed)))
                   (Z.of_nat (length (layoutOf ed))) - 5).
Proof.
  intros Hvalid (widget & rest & Hchildren & Hwidget) Hfuel.
  set (o := options (ed_ext ed)) in *.
  set (H := totalHeight (dom_children (ed_view ed))) in *.
  set (c := Z.of_nat (length (layoutOf ed))) in *.
  destruct (nextCount_pages o H Hvalid c) as [Hpages Hfive].
  set (n := (nextCount o H c - 5)%Z) in *.
  assert (Hwidget_run : ResponsiveSynth.pageWidget fuel o (ed_view ed)
                        = Some (synthesized o n)).
  { apply pageWidget_finite; [|unfold n; replace (nextCount o H c - 5 + 5)%Z
                                 with (nextCount o H c) by lia; exact Hfuel].
    rewrite renderedCount_layoutOf. exact Hpages. }
  rewrite refreshPagination_redraw. fold o. unfold redraw. rewrite Hwidget_run.
  eexists. split; [reflexivity|]. cbn [ed_view ed_ext dom_children].
  rewrite Hchildren. unfold mount. rewrite Hwidget.
  split; [|split; [reflexivity|split]].
  - eexists _, rest. split; reflexivity.
  - unfold H. rewrite Hchildren. unfold totalHeight, content_range. simpl length.
    now destruct rest.
  - unfold layoutOf. cbn [ed_view dom_children]. unfold paginationElement. simpl find.
    apply pagesElement_breaks.
Qed.

Lemma refreshTimes_counts (fuel : nat) (o : PaginationPlusOptions) (H : Z) :
  valid_geometry o = true ->
  (Z.to_nat (nextCount o H 0) < fuel)%nat ->
  forall (k : nat) (ed : Editor),
    options (ed_ext ed) = o -> totalHeight (dom_children (ed_view ed)) = H ->
    widget_first ed ->
    exists ed' : Editor,
      refreshTimes pageOffsetTop fuel k ed = Some ed' /\
      Z.of_nat (length (layoutOf ed')) = countAfter o H k (Z.of_nat (length (layoutOf ed))) /\
      ((0 < k)%nat ->
       layoutOf ed'
       = synthesized o (countAfter o H k (Z.of_nat (length (layoutOf ed))) - 5)).
Proof.
  intros Hvalid Hfuel. induction k as [|k IH]; intros ed Ho HH Hfirst.
  - exists ed. repeat split. intros Hk. lia.
  - pose proof (nextCount_range o H Hvalid (Z.of_nat (length (layoutOf ed)))) as Hrange.
    destruct (refresh_step ed fuel) as (ed1 & Hrun & Hfirst1 & Ho1 & HH1 & Hlay1).
    + now rewrite Ho.
    + exact Hfirst.
    + rewrite Ho, HH. lia.
    + rewrite Ho, HH in *.
      assert (Hlen1 : Z.of_nat (length (layoutOf ed1))
                      = nextCount o H (Z.of_nat (length (layoutOf ed)))).
      { rewrite Hlay1, synthesized_length. lia. }
      destruct (IH ed1 Ho1 HH1 Hfirst1) as (ed' & Hrun' & Hlen' & Hlay').
      exists ed'. simpl refreshTimes. rewrite Hrun. split; [exact Hrun'|].
      unfold countAfter in *. rewrite Nat.iter_succ_r, <- Hlen1.
      split; [exact Hlen'|]. intros _.
      destruct k as [|k]; [|apply Hlay'; lia].
      simpl in Hrun'. injection Hrun' as <-. simpl. rewrite Hlen1. exact Hlay1.
Qed.

End RefreshRuns.

(** X17. Refreshing again and again over unchanged content, on a valid
    geometry and a tree that starts with the widget, always completes (with
    fuel enough for the first estimate) and ends in a cycle of length at
    most two: from some refresh on, the layout after [k + 2] refreshes is
    the layout after [k], and its number of breaks is the [k]-th iterate of
    the count map. *)
Theorem refreshes_end_in_period_two (pageOffsetTop : list PageBreak -> nat -> Z)
    (ed : Editor) :
  valid_geometry (options (ed_ext ed)) = true ->
  widget_first ed ->
  exists K N : nat, forall fuel k : nat, (N <= fuel)%nat -> (K <= k)%nat ->
    exists e1 e2 : Editor,
      refreshTimes pageOffsetTop fuel k ed = Some e1 /\
      refreshTimes pageOffsetTop fuel (k + 2) ed = Some e2 /\
      layoutOf e2 = layoutOf e1 /\
      Z.of_nat (length (layoutOf e1))
      = countAfter (options (ed_ext ed)) (totalHeight (dom_children (ed_view ed))) k
          (Z.of_nat (length (layoutOf ed))).
Proof.
  intros Hvalid Hfirst.
  set (o := options (ed_ext ed)) in *.
  set (H := totalHeight (dom_children (ed_view ed))).
  set (c := Z.of_nat (length (layoutOf ed))).
  destruct (countAfter_period_two o H Hvalid c) as [K HK].
  exists (S K), (S (Z.to_nat (nextCount o H 0))). intros fuel k Hfuel Hk.
  destruct (refreshTimes_counts pageOffsetTop fuel o H Hvalid ltac:(lia) k ed
              eq_refl eq_refl Hfirst) as (e1 & Hrun1 & Hlen1 & Hlay1).
  destruct (refreshTimes_counts pageOffsetTop fuel o H Hvalid ltac:(lia) (k + 2) ed
              eq_refl eq_refl Hfirst) as (e2 & Hrun2 & Hlen2 & Hlay2).
  exists e1, e2. repeat split; auto.
  rewrite Hlay1, Hlay2 by lia. fold c. now rewrite HK by lia.
Qed.

Lemma refreshes_end_in_period_two_witness :
  exists K N : nat, forall fuel k : nat, (N <= fuel)%nat -> (K <= k)%nat ->
    exists e1 e2 : Editor,
      refreshTimes even_layout fuel k long_document = Some e1 /\
      refreshTimes even_layout fuel (k + 2) long_document = Some e2 /\
      layoutOf e2 = layoutOf e1 /\
      Z.of_nat (length (layoutOf e1))
      = countAfter (options (ed_ext long_document))
          (totalHeight (dom_children (ed_view long_document))) k
          (Z.of_nat (length (layoutOf long_document))).
Proof.
  apply (refreshes_end_in_period_two even_layout long_document).
  - reflexivity.
  - eexists _, _. split; reflexivity.
Defined.

(** The cycle of length two does occur: with default options and 10200
    pixels of content the count goes from 16 to 17 and back, for ever. *)
Example counts_alternate (k : nat) :
  countAfter addOptions 10200 (2 * k) 16 = 16%Z /\
  countAfter addOptions 10200 (S (2 * k)) 16 = 17%Z.
Proof.
  unfold countAfter. induction k as [|k [IH0 IH1]]; [split; reflexivity|].
  replace (2 * S k)%nat with (S (S (2 * k))) by lia.
  assert (H0 : Nat.iter (S (S (2 * k))) (nextCount addOptions 10200) 16 = 16%Z).
  { rewrite Nat.iter_succ, IH1. reflexivity. }
  split; [exact H0|]. rewrite Nat.iter_succ, H0. reflexivity.
Qed.

(** ** Resizes, the debounce timer, and destruction *)

Section Debounce.

Lemma advance_idle (now : Z) (rt : Runtime) :
  pending (rt_timers rt) = [] -> advance now rt = rt.
Proof.
  destruct rt as [st ob sh [nh pend] disp]. simpl. intros ->.
  unfold advance. simpl. now rewrite app_nil_r.
Qed.

Lemma advance_early (now : Z) (rt : Runtime) (h : positive) (due : Z) :
  pending (rt_timers rt) = [(h, due)] -> now < due -> advance now rt = rt.
Proof.
  destruct rt as [st ob sh [nh pend] disp]. simpl. intros -> Hearly.
  unfold advance. simpl.
  rewrite (filter_cons_False (fun timer : positive * Z => snd timer <= now))
    by (simpl; lia).
  rewrite (filter_cons_True (fun timer : positive * Z => ~ snd timer <= now))
    by (simpl; lia).
  rewrite !filter_nil. simpl. now rewrite app_nil_r.
Qed.

Lemma advance_due (now : Z) (rt : Runtime) (h : positive) (due : Z) :
  pending (rt_timers rt) = [(h, due)] -> due <= now ->
  rt_dispatched (advance now rt) = rt_dispatched rt ++ [resize_tr] /\
  pending (rt_timers (advance now rt)) = [].
Proof.
  intros Hp Hdue. unfold advance. simpl. rewrite Hp.
  rewrite (filter_cons_True (fun timer : positive * Z => snd timer <= now))
    by (simpl; lia).
  rewrite (filter_cons_False (fun timer : positive * Z => ~ snd timer <= now))
    by (simpl; lia).
  rewrite !filter_nil. split; reflexivity.
Qed.

Lemma resizeEntry_small (now : Z) (rt : Runtime) (newWidth : Z) :
  Z.abs (newWidth - currentWidth (rt_storage rt)) <= 5 -> resizeEntry now rt newWidth = rt.
Proof.
  intros Hsmall. unfold resizeEntry.
  destruct (Z.gtb_spec (Z.abs (newWidth - currentWidth (rt_storage rt))) 5); [lia|reflexivity].
Qed.

Lemma resizeEntry_arms (now : Z) (rt : Runtime) (newWidth : Z) :
  one_timer rt ->
  5 < Z.abs (newWidth - currentWidth (rt_storage rt)) ->
  rt_dispatched (resizeEntry now rt newWidth) = rt_dispatched rt /\
  rt_observing (resizeEntry now rt newWidth) = rt_observing rt /\
  currentWidth (rt_storage (resizeEntry now rt newWidth)) = newWidth /\
  pending (rt_timers (resizeEntry now rt newWidth)) = [(next_handle (rt_timers rt), now + 150)] /\
  resizeTimeout (rt_storage (resizeEntry now rt newWidth)) = Some (next_handle (rt_timers rt)).
Proof.
  intros Hone Hbig. unfold resizeEntry.
  destruct (Z.gtb_spec (Z.abs (newWidth - currentWidth (rt_storage rt))) 5); [|lia].
  assert (Hcleared : pending (clearTimeout (resizeTimeout (rt_storage rt)) (rt_timers rt)) = []
                     /\ next_handle (clearTimeout (resizeTimeout (rt_storage rt)) (rt_timers rt))
                        = next_handle (rt_timers rt)).
  { destruct Hone as [Hnone | (h & due & Hp & Hh)].
    - unfold clearTimeout. destruct (resizeTimeout (rt_storage rt)); simpl; [|auto].
      rewrite Hnone. auto.
    - rewrite Hh. simpl. rewrite Hp.
      rewrite (filter_cons_False (fun timer : positive * Z => fst timer <> h))
        by (simpl; auto).
      auto. }
  destruct Hcleared as [Hp Hn]. unfold setTimeout. simpl. rewrite Hp, Hn. auto.
Qed.

Lemma between_one_timer (t w : Z) (armed : bool) (rt : Runtime) :
  between t w armed rt -> one_timer rt.
Proof.
  intros (_ & _ & Hp). destruct armed; [|now left].
  destruct Hp as (h & Hp & Hh). right. eauto.
Qed.

Lemma train_step (t w t' w' : Z) (armed : bool) (rt : Runtime) :
  between t w armed rt -> t <= t' < t + 150 -> 5 < Z.abs (w' - w) ->
  between t' w' true (resized rt (t', [w'])) /\
  rt_dispatched (resized rt (t', [w'])) = rt_dispatched rt.
Proof.
  intros Hb Ht Hw. pose proof (between_one_timer _ _ _ _ Hb) as Hone.
  destruct Hb as (Hobs & Hwidth & Hp).
  assert (Hadv : advance t' rt = rt).
  { destruct armed; [|now apply advance_idle].
    destruct Hp as (h & Hp & _). apply (advance_early t' rt h (t + 150)); [exact Hp | lia]. }
  unfold resized. rewrite Hadv, Hobs. unfold resizeCallback. simpl.
  destruct (resizeEntry_arms t' rt w' Hone) as (Hd & Ho & Hcw & Hpend & Hh);
    [rewrite Hwidth; exact Hw|].
  split; [|exact Hd]. split; [now rewrite Ho|]. split; [exact Hcw|]. eauto.
Qed.

Lemma train_run (events : list (Z * Z)) :
  forall (t w : Z) (armed : bool) (rt : Runtime),
    between t w armed rt -> train t w events ->
    rt_dispatched (observe (map single events) rt) = rt_dispatched rt /\
    match last events with
    | Some (tl, wl) => between tl wl true (observe (map single events) rt)
    | None => between t w armed (observe (map single events) rt)
    end.
Proof.
  induction events as [|[t' w'] events IH]; intros t w armed rt Hb Htrain; [auto|].
  destruct Htrain as (Ht & Hw & Htrain).
  destruct (train_step t w t' w' armed rt Hb Ht Hw) as [Hb' Hd'].
  destruct (IH t' w' true _ Hb' Htrain) as [Hd Hlast].
  change (observe (map single ((t', w') :: events)) rt)
    with (observe (map single events) (resized rt (t', [w']))).
  split; [now rewrite Hd|].
  destruct events as [|e events]; [exact Hlast|].
  rewrite last_cons_cons.
  destruct (last (e :: events)) as [[tl wl]|] eqn:Elast; [exact Hlast|].
  apply last_None in Elast. discriminate Elast.
Qed.

Lemma observe_noise (events : list (Z * list Z)) :
  forall rt : Runtime,
    pending (rt_timers rt) = [] ->
    noise (currentWidth (rt_storage rt)) events ->
    observe events rt = rt.
Proof.
  induction events as [|[t entries] events IH]; intros rt Hidle Hnoise; [reflexivity|].
  assert (Hstep : resized rt (t, entries) = rt).
  { unfold resized. rewrite (advance_idle t rt Hidle).
    destruct (rt_observing rt); [|reflexivity].
    unfold resizeCallback.
    assert (Hall : forall newWidth, newWidth ∈ entries ->
                     Z.abs (newWidth - currentWidth (rt_storage rt)) <= 5).
    { intros newWidth Hin. apply (Hnoise t entries); [apply list_elem_of_here | exact Hin]. }
    clear Hnoise IH. induction entries as [|e entries IHe]; [reflexivity|].
    simpl. rewrite resizeEntry_small by (apply Hall, list_elem_of_here).
    apply IHe. intros newWidth Hin. now apply Hall, list_elem_of_further. }
  change (observe ((t, entries) :: events) rt)
    with (observe events (resized rt (t, entries))).
  rewrite Hstep. apply IH; [exact Hidle|].
  intros t' entries' Hin. apply (Hnoise t' entries'). now apply list_elem_of_further.
Qed.

(** At most one timer is pending in every state the extension reaches. *)
Lemma resized_one_timer (rt : Runtime) (event : Z * list Z) :
  one_timer rt -> one_timer (resized rt event).
Proof.
  intros Hone. destruct event as [t entries]. unfold resized.
  assert (Hadv : one_timer (advance t rt)).
  { destruct Hone as [Hnone | (h & due & Hp & Hh)].
    - now rewrite advance_idle; [left|].
    - destruct (Z.le_gt_cases due t) as [Hdue | Hearly].
      + left. now apply (advance_due t rt h due).
      + rewrite (advance_early t rt h due) by (auto; lia). right. eauto. }
  destruct (rt_observing (advance t rt)); [|exact Hadv].
  unfold resizeCallback. generalize dependent (advance t rt). clear.
  induction entries as [|e entries IH]; intros rt Hone; [exact Hone|].
  simpl. apply IH.
  destruct (Z.le_gt_cases (Z.abs (e - currentWidth (rt_storage rt))) 5) as [Hsmall | Hbig].
  - now rewrite resizeEntry_small.
  - destruct (resizeEntry_arms t rt e Hone Hbig) as (_ & _ & _ & Hp & Hh).
    right. eauto.
Qed.

Lemma observe_one_timer (events : list (Z * list Z)) :
  forall rt : Runtime, one_timer rt -> one_timer (observe events rt).
Proof.
  induction events as [|event events IH]; intros rt Hone; [exact Hone|].
  change (observe (event :: events) rt) with (observe events (resized rt event)).
  apply IH. now apply resized_one_timer.
Qed.

Lemma observe_disconnected (events : list (Z * list Z)) :
  forall rt : Runtime,
    rt_observing rt = false -> pending (rt_timers rt) = [] -> observe events rt = rt.
Proof.
  induction events as [|[t entries] events IH]; intros rt Hobs Hidle; [reflexivity|].
  change (observe ((t, entries) :: events) rt)
    with (observe events (resized rt (t, entries))).
  unfold resized. rewrite (advance_idle t rt Hidle), Hobs. now apply IH.
Qed.

End Debounce.

(** X18. Debounce: a train of resizes, each more than 5 away in width from
    the one before and less than 150 after it, dispatches nothing while it
    lasts and leaves the last width in the storage; after it, nothing is
    dispatched before 150 have passed since the last resize, and exactly
    one transaction, tagged with the resize key, once they have. *)
Theorem resize_train_debounced (rt : Runtime) (t1 w1 tl wl now : Z)
    (events : list (Z * Z)) :
  rt_observing rt = true ->
  pending (rt_timers rt) = [] ->
  train t1 (currentWidth (rt_storage rt)) ((t1, w1) :: events) ->
  last ((t1, w1) :: events) = Some (tl, wl) ->
  let after := observe (map single ((t1, w1) :: events)) rt in
  rt_dispatched after = rt_dispatched rt /\
  currentWidth (rt_storage after) = wl /\
  (now < tl + 150 -> rt_dispatched (advance now after) = rt_dispatched rt) /\
  (tl + 150 <= now ->
   rt_dispatched (advance now after) = rt_dispatched rt ++ [resize_tr] /\
   pending (rt_timers (advance now after)) = []).
Proof.
  intros Hobs Hidle Htrain Hlast after.
  destruct (train_run ((t1, w1) :: events) t1 (currentWidth (rt_storage rt)) false rt)
    as [Hd Hb]; [repeat split; auto | exact Htrain |].
  rewrite Hlast in Hb. fold after in Hd, Hb.
  destruct Hb as (_ & Hw & h & Hp & _).
  split; [exact Hd|]. split; [exact Hw|]. split.
  - intros Hearly. now rewrite (advance_early now after h (tl + 150)).
  - intros Hdue. destruct (advance_due now after h (tl + 150) Hp Hdue) as [Hdisp Hnone].
    now rewrite Hdisp, Hd.
Qed.

Lemma resize_train_debounced_witness :
  rt_dispatched (observe (map single two_resizes) quiet_runtime) = [] /\
  currentWidth (rt_storage (observe (map single two_resizes) quiet_runtime)) = 800 /\
  (199 < 50 + 150 ->
   rt_dispatched (advance 199 (observe (map single two_resizes) quiet_runtime)) = []) /\
  (50 + 150 <= 200 ->
   rt_dispatched (advance 200 (observe (map single two_resizes) quiet_runtime))
   = [] ++ [resize_tr] /\
   pending (rt_timers (advance 200 (observe (map single two_resizes) quiet_runtime))) = []).
Proof.
  pose proof (resize_train_debounced quiet_runtime 0 900 50 800 199 [(50, 800)]
                eq_refl eq_refl) as H199.
  pose proof (resize_train_debounced quiet_runtime 0 900 50 800 200 [(50, 800)]
                eq_refl eq_refl) as H200.
  assert (Htrain : train 0 (currentWidth (rt_storage quiet_runtime)) [(0, 900); (50, 800)])
    by (simpl; lia).
  specialize (H199 Htrain eq_refl). specialize (H200 Htrain eq_refl).
  destruct H199 as (Hd & Hw & Hearly & _). destruct H200 as (_ & _ & _ & Hdue).
  split; [exact Hd|]. split; [exact Hw|]. split; [exact Hearly | exact Hdue].
Defined.

(** X19. Resize noise: as long as every reported width stays within 5 of
    the width in the storage, and no timer is pending, the callbacks change
    nothing: no timer is set, nothing is dispatched, the stored width stays,
    however many events come and whenever. *)
Theorem resize_noise_ignored (events : list (Z * list Z)) (rt : Runtime) :
  pending (rt_timers rt) = [] ->
  noise (currentWidth (rt_storage rt)) events ->
  forall now : Z, advance now (observe events rt) = rt.
Proof.
  intros Hidle Hnoise now. rewrite (observe_noise events rt Hidle Hnoise).
  now apply advance_idle.
Qed.

Lemma resize_noise_ignored_witness :
  advance 2000 (observe [(0, [1003]); (400, [996; 1005]); (900, [1000])] quiet_runtime)
  = quiet_runtime.
Proof.
  apply (resize_noise_ignored _ quiet_runtime); [reflexivity|].
  intros t entries Hin newWidth Hw. simpl.
  repeat (apply elem_of_cons in Hin as [Hin | Hin];
          [injection Hin as -> ->;
           repeat (apply elem_of_cons in Hw as [-> | Hw]; [lia|]);
           now apply elem_of_nil in Hw|]).
  now apply elem_of_nil in Hin.
Defined.

(** X20. Destruction: in whatever state resizes and the clock have left
    the extension since its creation, [onDestroy] leaves no timer pending
    and the observer disconnected, so nothing is dispatched afterwards,
    even when a debounced refresh was still waiting; the style element is
    out of the head. *)
Theorem onDestroy_silences (clientWidth : Z) (hasResizeObserver : bool)
    (handle : positive) (before after : list (Z * list Z)) (now : Z) :
  let running :=
    observe before
      (ResponsiveLife.onCreate clientWidth hasResizeObserver
         {| next_handle := handle; pending := [] |}) in
  let destroyed := ResponsiveLife.onDestroy running in
  pending (rt_timers destroyed) = [] /\
  rt_styleInHead destroyed = false /\
  advance now (observe after destroyed) = destroyed /\
  rt_dispatched (advance now (observe after destroyed)) = rt_dispatched running.
Proof.
  intros running destroyed.
  assert (Hone : one_timer running).
  { apply observe_one_timer. now left. }
  assert (Hidle : pending (rt_timers destroyed) = []).
  { unfold destroyed, ResponsiveLife.onDestroy. simpl.
    destruct Hone as [Hnone | (h & due & Hp & Hh)].
    - unfold clearTimeout. destruct (resizeTimeout (rt_storage running)); simpl; [|auto].
      now rewrite Hnone.
    - rewrite Hh. simpl. rewrite Hp.
      now rewrite (filter_cons_False (fun timer : positive * Z => fst timer <> h))
        by (simpl; auto). }
  assert (Hsame : advance now (observe after destroyed) = destroyed).
  { rewrite (observe_disconnected after destroyed eq_refl Hidle). now apply advance_idle. }
  repeat split; auto. now rewrite Hsame.
Qed.

(** ** Refreshing the page twice, and what the sampler counts *)

Section RefreshTwice.

Lemma pagesWithContent_offsets (tops : list num) (c1 c2 : list Element) :
  map el_offsetTop c1 = map el_offsetTop c2 ->
  pagesWithContent tops c1 = pagesWithContent tops c2.
Proof.
  intros Hoff. unfold pagesWithContent.
  assert (Hrange : map el_offsetTop (content_range c1) = map el_offsetTop (content_range c2)).
  { unfold content_range. rewrite !fmap_drop, !fmap_take.
    assert (Hlen : length c1 = length c2)
      by (rewrite <- (length_map el_offsetTop c1), Hoff; apply length_map).
    rewrite Hlen. do 2 f_equal. exact Hoff. }
  generalize (∅ : gset Z). revert Hrange.
  generalize (content_range c1) (content_range c2). clear.
  induction l as [|e1 l1 IH]; intros [|e2 l2] Hoff acc; try discriminate Hoff; [reflexivity|].
  simpl in Hoff. injection Hoff as He Hl. simpl. rewrite He. now apply IH.
Qed.

Lemma replacePages_offsets (target target' : Element) (children : list Element) :
  findPages children = Some target -> el_offsetTop target' = el_offsetTop target ->
  map el_offsetTop (replacePages target' children) = map el_offsetTop children.
Proof.
  unfold findPages. intros Hfind Hoff.
  induction children as [|child rest IH]; [reflexivity|].
  simpl in *. destruct (el_id child =? "pages").
  - injection Hfind as ->. simpl. now rewrite Hoff.
  - simpl. f_equal. now apply IH.
Qed.

Lemma replacePages_twice (t1 t2 : Element) (children : list Element) :
  el_id t1 = "pages" ->
  replacePages t2 (replacePages t1 children) = replacePages t2 children.
Proof.
  intros Hid. induction children as [|child rest IH]; [reflexivity|].
  simpl. destruct (String.eqb_spec (el_id child) "pages") as [Hc | Hc]; simpl.
  - now rewrite Hid.
  - destruct (String.eqb_spec (el_id child) "pages"); [contradiction|]. now rewrite IH.
Qed.

Lemma markLastPage_map restyle (m : num) (breaks : list RenderedBreak) :
  (forall b, restyle (add_last_page b) = add_last_page (restyle b)) ->
  markLastPage m (map restyle breaks) = map restyle (markLastPage m breaks).
Proof.
  intros Hcomm. unfold markLastPage. rewrite length_map.
  destruct (m + Fin 1)%num as [k| | |]; try reflexivity.
  destruct ((0 <=? k)%Z && (k <? Z.of_nat (length breaks))%Z); [|reflexivity].
  apply list_eq. intros i.
  rewrite list_lookup_alter, !list_lookup_fmap, list_lookup_alter.
  destruct (decide (Z.to_nat k = i)); [|reflexivity].
  destruct (breaks !! Z.to_nat k); simpl; [|reflexivity]. now rewrite Hcomm.
Qed.

Lemma markLastPage_twice (m : num) (breaks : list RenderedBreak) :
  markLastPage m (markLastPage m breaks) = markLastPage m breaks.
Proof.
  unfold markLastPage. destruct (m + Fin 1)%num as [k| | |]; try reflexivity.
  destruct ((0 <=? k)%Z && (k <? Z.of_nat (length breaks))%Z) eqn:Hin; [|now rewrite Hin].
  rewrite length_alter, Hin. rewrite list_alter_alter_eq.
  apply list_alter_ext; [|reflexivity]. intros b _. reflexivity.
Qed.

Lemma refreshPageWith_twice (ph pg bs : num) restyle (root : Root) :
  (forall b, restyle (add_last_page b) = add_last_page (restyle b)) ->
  (forall b, restyle (restyle b) = restyle b) ->
  (forall b, rb_pageTop (restyle b) = rb_pageTop b) ->
  refreshPageWith ph pg bs restyle (refreshPageWith ph pg bs restyle root)
  = refreshPageWith ph pg bs restyle root.
Proof.
  intros Hcomm Hidem Htop.
  unfold refreshPageWith at 2 3.
  destruct (findPages (root_children root)) as [target|] eqn:Hfind.
  2: { unfold refreshPageWith. now rewrite Hfind. }
  pose proof (findPages_id _ _ Hfind) as Hid.
  set (tops := pageTops (map rb_pageTop (el_breaks target))).
  set (m := maxPage (pagesWithContent tops (root_children root))).
  set (breaks1 := map restyle (markLastPage m (el_breaks target))).
  set (target1 := {| el_id := el_id target; el_rmPagination := el_rmPagination target;
                     el_offsetTop := el_offsetTop target;
                     el_scrollHeight := el_scrollHeight target; el_breaks := breaks1 |}).
  unfold refreshPageWith. cbn [root_children].
  rewrite (findPages_replacePages target target1 _ Hfind Hid).
  change (el_breaks target1) with breaks1.
  change (el_id target1) with (el_id target).
  change (el_rmPagination target1) with (el_rmPagination target).
  change (el_offsetTop target1) with (el_offsetTop target).
  change (el_scrollHeight target1) with (el_scrollHeight target).
  assert (Htops : pageTops (map rb_pageTop breaks1) = tops).
  { unfold tops, breaks1. f_equal.
    destruct (maxPage_highest (pagesWithContent tops (root_children root)))
      as (mz & Hmz & _).
    fold m in Hmz. rewrite Hmz.
    destruct (markLastPage_keeps mz (el_breaks target)) as [_ Hkeep].
    rewrite <- Hkeep. apply list_eq. intros i. rewrite !list_lookup_fmap.
    destruct (markLastPage (Fin mz) (el_breaks target) !! i); simpl; [|reflexivity].
    now rewrite Htop. }
  rewrite Htops.
  rewrite (pagesWithContent_offsets tops _ (root_children root))
    by (now apply (replacePages_offsets target)).
  fold m. f_equal.
  rewrite (replacePages_twice target1) by exact Hid. f_equal.
  unfold target1. f_equal.
  unfold breaks1. rewrite markLastPage_map by exact Hcomm.
  rewrite markLastPage_twice. apply list_eq. intros i. rewrite !list_lookup_fmap.
  destruct (markLastPage m (el_breaks target) !! i); simpl; [|reflexivity].
  now rewrite Hidem.
Qed.

End RefreshTwice.

(** X21. As long as the layout does not move (same offsets), refreshing
    the page a second time changes nothing more, in either revision: same
    tree, same marks, same minimum height. *)
Theorem refreshPage_twice (o : PaginationPlusOptions) (c : BasePage.Closure) (root : Root) :
  ResponsivePage.refreshPage o (ResponsivePage.refreshPage o root)
  = ResponsivePage.refreshPage o root /\
  BasePage.refreshPage c o (BasePage.refreshPage c o root) = BasePage.refreshPage c o root.
Proof.
  unfold ResponsivePage.refreshPage, BasePage.refreshPage.
  split; apply refreshPageWith_twice; intros b; reflexivity.
Qed.

(** X22. The height sampler counts the scroll heights of the children
    between the first two and the last, and nothing else: the widget, the
    header spacer and the footer spacer never count, and a root with at
    most three children samples zero. *)
Theorem totalHeight_counts_blocks (first second last : Element) (blocks : list Element)
    (children : list Element) :
  totalHeight (first :: second :: blocks ++ [last])
  = foldr Z.add 0%Z (map el_scrollHeight blocks) /\
  ((length children <= 3)%nat -> totalHeight children = 0%Z).
Proof.
  split; [|apply totalHeight_short].
  unfold totalHeight, content_range.
  replace (length (first :: second :: blocks ++ [last]) - 1)%nat
    with (length (first :: second :: blocks)) by (simpl; rewrite length_app; simpl; lia).
  change (first :: second :: blocks ++ [last]) with ((first :: second :: blocks) ++ [last]).
  rewrite take_app_length. simpl drop.
  assert (Hsum : forall acc : Z,
             foldl (fun a e => a + el_scrollHeight e)%Z acc blocks
             = (acc + foldr Z.add 0 (map el_scrollHeight blocks))%Z).
  { induction blocks as [|b blocks IH]; intros acc; simpl; [lia|]. rewrite IH. lia. }
  now rewrite Hsum.
Qed.

Lemma totalHeight_counts_blocks_witness :
  totalHeight (block 0 10 :: block 10 20 :: [block 30 400; block 430 500] ++ [block 930 10])
  = foldr Z.add 0%Z (map el_scrollHeight [block 30 400; block 430 500]) /\
  totalHeight [block 0 10; block 10 20; block 30 10] = 0%Z.
Proof.
  destruct (totalHeight_counts_blocks (block 0 10) (block 10 20) (block 930 10)
              [block 30 400; block 430 500] [block 0 10; block 10 20; block 30 10])
    as [Hsum Hshort].
  split; [exact Hsum | apply Hshort; simpl; lia].
Defined.
